(** * VSyncReactor: a shallow embedding of
    services/surfaceflinger/Scheduler/VSyncReactor.cpp

  The reactor reconciles hardware vsync timestamps and present fences with
  a period tracker and multiplexes the vsync signal to at most three
  listeners through [CallbackRepeater]s.  Every public method of the C++
  class runs under [mMutex]; the embedding is therefore sequential: one
  method call is one function from the reactor state to an [Outcome]. *)

From Stdlib Require Import ZArith Lia.
From stdpp Require Import base option list gmap strings.

Local Open Scope Z_scope.

(** ** [nsecs_t]: 64-bit signed nanoseconds *)

Module Nsecs.

Definition INT64_MIN : Z := - 2 ^ 63.
Definition INT64_MAX : Z := 2 ^ 63 - 1.

(** Two's-complement wrap-around of a mathematical integer to [int64_t].
    Signed overflow is undefined in C++; the operations below wrap, as the
    hardware does, and a property that depends on their result says where
    they do not overflow. *)
Definition wrap (z : Z) : Z := (z + 2 ^ 63) mod 2 ^ 64 - 2 ^ 63.

(** The value fits an [int64_t]: the C++ operation producing it does not
    overflow. *)
Definition representable (z : Z) : Prop := INT64_MIN <= z <= INT64_MAX.

Definition add (a b : Z) : Z := wrap (a + b).
Definition sub (a b : Z) : Z := wrap (a - b).
Definition mul (a b : Z) : Z := wrap (a * b).
(** [std::abs] on [int64_t]. *)
Definition abs (a : Z) : Z := wrap (Z.abs a).

End Nsecs.

Abbreviation nsecs_t := Z.

(** ** Outcomes of a method call *)

(** A call either returns, or trips a [LOG_ALWAYS_FATAL_IF] (the process
  aborts with the given message), or runs into behaviour the C++ standard
  leaves undefined. *)
Inductive Outcome (A : Type) : Type :=
| Returns (a : A)
| Fatal (msg : string)
| Undefined.

Arguments Returns {A} a.
Arguments Fatal {A} msg.
Arguments Undefined {A}.

#[global] Instance Outcome_ret : MRet Outcome := λ A a, Returns a.

#[global] Instance Outcome_bind : MBind Outcome := λ A B k m,
match m with
| Returns a => k a
| Fatal msg => Fatal msg
| Undefined => Undefined
end.

#[global] Instance Outcome_fmap : FMap Outcome := λ A B g m,
  match m with
  | Returns a => Returns (g a)
  | Fatal msg => Fatal msg
  | Undefined => Undefined
  end.

(** [status_t] values the reactor hands out. *)
Inductive status_t : Set := NO_ERROR | NO_MEMORY.

(** ** Fences *)

Module Fence.

(** Modelled from the spec: the two distinguished signal times of
    ui/Fence.h, which is not part of these sources.  A fence's signal time
    is exactly one of PENDING, INVALID or a concrete timestamp; the values
    are those of the header. *)
Definition SIGNAL_TIME_PENDING : nsecs_t := Nsecs.INT64_MAX.
Definition SIGNAL_TIME_INVALID : nsecs_t := -1.

End Fence.

(** A [std::shared_ptr<FenceTime>] is a possibly null handle to a fence that
  the caller, the backlog and the signalling side share.  The handle is the
  fence's identity; what [getCachedSignalTime] answers is read from
  a snapshot of the shared fences taken at the call. *)
Definition FenceTime := N.
Definition FenceSignals := FenceTime → nsecs_t.

(** ** Collaborators: tracker, dispatch, clock *)

Module Tracker.

(** The [VSyncTracker] interface (VSyncTracker.h), over the tracker's
    state. *)
Class VSyncTracker (T : Type) : Type := {
  addVsyncTimestamp : nsecs_t → T → T;
  currentPeriod : T → nsecs_t;
  setPeriod : nsecs_t → T → T;
  nextAnticipatedVSyncTimeFrom : nsecs_t → T → nsecs_t
}.

(** The calls a tracker can receive that change it. *)
Inductive Call : Set :=
| AddVsyncTimestamp (timestamp : nsecs_t)
| SetPeriod (period : nsecs_t).

(** A tracker together with the record of the mutating calls made on it,
    oldest first. *)
Record Logged (T : Type) : Type := mkLogged {
  inner : T;
  calls : list Call
}.
Arguments mkLogged {T} inner calls.
Arguments inner {T} l.
Arguments calls {T} l.

#[global] Instance Logged_tracker {T : Type} `{VSyncTracker T} :
  VSyncTracker (Logged T) := {
  addVsyncTimestamp ts l :=
    mkLogged (addVsyncTimestamp ts (inner l)) (calls l ++ [AddVsyncTimestamp ts]);
  currentPeriod l := currentPeriod (inner l);
  setPeriod p l :=
    mkLogged (setPeriod p (inner l)) (calls l ++ [SetPeriod p]);
  nextAnticipatedVSyncTimeFrom ts l := nextAnticipatedVSyncTimeFrom ts (inner l)
}.

(** The vsync samples among the recorded calls, in order. *)
Fixpoint vsyncSamples (cs : list Call) : list nsecs_t :=
  match cs with
  | [] => []
  | AddVsyncTimestamp ts :: rest => ts :: vsyncSamples rest
  | SetPeriod _ :: rest => vsyncSamples rest
  end.

(** A tracker that holds a period and ignores samples. *)
Record FixedPeriod : Type := mkFixedPeriod { period : nsecs_t }.

#[global] Instance FixedPeriod_tracker : VSyncTracker FixedPeriod := {
  addVsyncTimestamp _ p := p;
  currentPeriod p := period p;
  setPeriod p _ := mkFixedPeriod p;
  nextAnticipatedVSyncTimeFrom ts _ := ts
}.

End Tracker.

Module Dispatch.

Inductive ScheduleResult : Set := Scheduled | CannotSchedule | ScheduleError.
Inductive CancelResult : Set := Cancelled | TooLate | CancelError.

Definition CallbackToken := N.

(** The [VSyncDispatch] interface (VSyncDispatch.h), over the dispatcher's
    state.  The function object handed to [registerCallback] is the
    repeater's own [callback]; only its name is kept. *)
Class VSyncDispatch (D : Type) : Type := {
  registerCallback : string → D → CallbackToken * D;
  unregisterCallback : CallbackToken → D → D;
  schedule : CallbackToken → nsecs_t → nsecs_t → D → ScheduleResult * D;
  cancel : CallbackToken → D → CancelResult * D
}.

Inductive Call : Set :=
| RegisterCallback (name : string)
| UnregisterCallback (token : CallbackToken)
| Schedule (token : CallbackToken) (workDuration earliestVsync : nsecs_t)
| Cancel (token : CallbackToken).

(** A dispatcher that accepts every request and records it; tokens are
    handed out in sequence. *)
Record Recording : Type := mkRecording {
  nextToken : CallbackToken;
  calls : list Call
}.

#[global] Instance Recording_dispatch : VSyncDispatch Recording := {
  registerCallback name d :=
    (nextToken d, mkRecording (N.succ (nextToken d)) (calls d ++ [RegisterCallback name]));
  unregisterCallback token d :=
    mkRecording (nextToken d) (calls d ++ [UnregisterCallback token]);
  schedule token work earliest d :=
    (Scheduled, mkRecording (nextToken d) (calls d ++ [Schedule token work earliest]));
  cancel token d :=
    (Cancelled, mkRecording (nextToken d) (calls d ++ [Cancel token]))
}.

End Dispatch.

Module Clock.

Class Clock (C : Type) : Type := { now : C → nsecs_t }.

(** A clock standing at one instant. *)
Record Fixed : Type := mkFixed { instant : nsecs_t }.

#[global] Instance Fixed_clock : Clock Fixed := { now c := instant c }.

End Clock.

(** A [DispSync::Callback*]: the listener's identity. *)
Definition Callback := N.

(** ** CallbackRepeater *)

Module CallbackRepeater.
Section WithDispatch.
Context {D : Type} `{Dispatch.VSyncDispatch D}.

(** [mRegistration] is the token the repeater's [VSyncCallbackRegistration]
    obtained from the dispatcher. *)
Record t : Type := mk {
  mCallback : Callback;
  mRegistration : Dispatch.CallbackToken;
  mStopped : bool;
  mPeriod : nsecs_t;
  mOffset : nsecs_t;
  mLastCallTime : nsecs_t
}.

Definition new (cb : Callback) (name : string) (period offset notBefore : nsecs_t)
    (d : D) : t * D :=
  let '(token, d') := Dispatch.registerCallback name d in
  (mk cb token false period offset notBefore, d').

Definition calculateWorkload (r : t) : nsecs_t :=
  Nsecs.sub (mPeriod r) (mOffset r).

Definition start (offset : nsecs_t) (r : t) (d : D) : Outcome (t * D) :=
  let r' := mk (mCallback r) (mRegistration r) false (mPeriod r) offset (mLastCallTime r) in
  let '(schedule_result, d') :=
    Dispatch.schedule (mRegistration r') (calculateWorkload r') (mLastCallTime r') d in
  match schedule_result with
  | Dispatch.Scheduled => Returns (r', d')
  | _ => Fatal "Error scheduling callback: rc %X"
  end.

Definition setPeriod (period : nsecs_t) (r : t) : t :=
  if period =? mPeriod r then r
  else mk (mCallback r) (mRegistration r) (mStopped r) period (mOffset r) (mLastCallTime r).

Definition stop (r : t) (d : D) : Outcome (t * D) :=
  if mStopped r then Fatal "DispSyncInterface misuse: callback already stopped"
  else
    let '(_, d') := Dispatch.cancel (mRegistration r) d in
    Returns (mk (mCallback r) (mRegistration r) true (mPeriod r) (mOffset r)
                (mLastCallTime r), d').

(** The firing, [CallbackRepeater::callback], which the dispatcher calls
    with the vsync time and the wake-up time.  It takes [mMutex] twice: once
    to record the vsync time, and once more, after the listener has run
    outside the lock, to schedule the next firing.  [start], [setPeriod]
    and [stop] can run between the two. *)
Definition callbackRecord (vsynctime : nsecs_t) (r : t) : t :=
  mk (mCallback r) (mRegistration r) (mStopped r) (mPeriod r) (mOffset r) vsynctime.

Definition callbackReschedule (vsynctime : nsecs_t) (r : t) (d : D) : Outcome (t * D) :=
  let '(schedule_result, d') :=
    Dispatch.schedule (mRegistration r) (calculateWorkload r) vsynctime d in
  match schedule_result with
  | Dispatch.Scheduled => Returns (r, d')
  | _ => Fatal "Error rescheduling callback: rc %X"
  end.

(** [mCallback->onDispSyncEvent(wakeupTime)]: the listener and the time it
    is given. *)
Definition DispSyncEvent : Type := Callback * nsecs_t.

(** A firing that nothing interrupts; the result carries what the listener
    was called with. *)
Definition callback (vsynctime wakeupTime : nsecs_t) (r : t) (d : D)
    : Outcome (DispSyncEvent * (t * D)) :=
  let r := callbackRecord vsynctime r in
  let event := (mCallback r, wakeupTime) in
  rd ← callbackReschedule vsynctime r d;
  Returns (event, rd).

End WithDispatch.
End CallbackRepeater.

(** ** VSyncReactor *)

Module VSyncReactor.
Section WithCollaborators.
Context {T D C : Type}.
Context `{Tracker.VSyncTracker T} `{Dispatch.VSyncDispatch D} `{Clock.Clock C}.

(** The members of the class.  [mCallbacks] is the
    [std::unordered_map<DispSync::Callback*, std::unique_ptr<CallbackRepeater>>]. *)
Record t : Type := mk {
  mClock : C;
  mTracker : T;
  mDispatch : D;
  mPendingLimit : nat;
  mIgnorePresentFences : bool;
  mUnfiredFences : list FenceTime;
  mMoreSamplesNeeded : bool;
  mPeriodTransitioningTo : option nsecs_t;
  mLastHwVsync : option nsecs_t;
  mCallbacks : gmap Callback CallbackRepeater.t
}.

(** Assignments to single members. *)
Definition with_mTracker (x : T) (s : t) : t :=
  mk (mClock s) x (mDispatch s) (mPendingLimit s) (mIgnorePresentFences s)
     (mUnfiredFences s) (mMoreSamplesNeeded s) (mPeriodTransitioningTo s)
     (mLastHwVsync s) (mCallbacks s).
Definition with_mDispatch (x : D) (s : t) : t :=
  mk (mClock s) (mTracker s) x (mPendingLimit s) (mIgnorePresentFences s)
     (mUnfiredFences s) (mMoreSamplesNeeded s) (mPeriodTransitioningTo s)
     (mLastHwVsync s) (mCallbacks s).
Definition with_mIgnorePresentFences (x : bool) (s : t) : t :=
  mk (mClock s) (mTracker s) (mDispatch s) (mPendingLimit s) x
     (mUnfiredFences s) (mMoreSamplesNeeded s) (mPeriodTransitioningTo s)
     (mLastHwVsync s) (mCallbacks s).
Definition with_mUnfiredFences (x : list FenceTime) (s : t) : t :=
  mk (mClock s) (mTracker s) (mDispatch s) (mPendingLimit s) (mIgnorePresentFences s)
     x (mMoreSamplesNeeded s) (mPeriodTransitioningTo s)
     (mLastHwVsync s) (mCallbacks s).
Definition with_mMoreSamplesNeeded (x : bool) (s : t) : t :=
  mk (mClock s) (mTracker s) (mDispatch s) (mPendingLimit s) (mIgnorePresentFences s)
     (mUnfiredFences s) x (mPeriodTransitioningTo s)
     (mLastHwVsync s) (mCallbacks s).
Definition with_mPeriodTransitioningTo (x : option nsecs_t) (s : t) : t :=
  mk (mClock s) (mTracker s) (mDispatch s) (mPendingLimit s) (mIgnorePresentFences s)
     (mUnfiredFences s) (mMoreSamplesNeeded s) x
     (mLastHwVsync s) (mCallbacks s).
Definition with_mLastHwVsync (x : option nsecs_t) (s : t) : t :=
  mk (mClock s) (mTracker s) (mDispatch s) (mPendingLimit s) (mIgnorePresentFences s)
     (mUnfiredFences s) (mMoreSamplesNeeded s) (mPeriodTransitioningTo s)
     x (mCallbacks s).
Definition with_mCallbacks (x : gmap Callback CallbackRepeater.t) (s : t) : t :=
  mk (mClock s) (mTracker s) (mDispatch s) (mPendingLimit s) (mIgnorePresentFences s)
     (mUnfiredFences s) (mMoreSamplesNeeded s) (mPeriodTransitioningTo s)
     (mLastHwVsync s) x.

(** The constructor.  The backlog and the listener map start empty and the
    optionals disengaged; the two flags start false (their in-class
    initialisers are in VSyncReactor.h, which is not among these sources;
    no property below depends on them). *)
Definition new (clock : C) (dispatch : D) (tracker : T) (pendingFenceLimit : nat) : t :=
  mk clock tracker dispatch pendingFenceLimit false [] false None None ∅.

(** The loop over [mUnfiredFences] in [addPresentFence]: pending fences stay,
    invalid ones are erased, signalled ones are erased after their time went
    to the tracker. *)
Fixpoint drainUnfiredFences (signals : FenceSignals) (fences : list FenceTime)
    (tracker : T) : list FenceTime * T :=
  match fences with
  | [] => ([], tracker)
  | it :: rest =>
      let time := signals it in
      if time =? Fence.SIGNAL_TIME_PENDING then
        let '(kept, tracker') := drainUnfiredFences signals rest tracker in
        (it :: kept, tracker')
      else if time =? Fence.SIGNAL_TIME_INVALID then
        drainUnfiredFences signals rest tracker
      else
        drainUnfiredFences signals rest (Tracker.addVsyncTimestamp time tracker)
  end.

(** [v.erase(v.begin())]: undefined on an empty vector. *)
Definition eraseBegin (fences : list FenceTime) : Outcome (list FenceTime) :=
  match fences with
  | [] => Undefined
  | _ :: rest => Returns rest
  end.

Definition addPresentFence (fence : option FenceTime) (signals : FenceSignals)
    (s : t) : Outcome (bool * t) :=
  match fence with
  | None => Returns (false, s)
  | Some f =>
      let signalTime := signals f in
      if signalTime =? Fence.SIGNAL_TIME_INVALID then Returns (true, s)
      else if mIgnorePresentFences s then Returns (true, s)
      else
        let '(kept, tracker) := drainUnfiredFences signals (mUnfiredFences s) (mTracker s) in
        let s := with_mTracker tracker (with_mUnfiredFences kept s) in
        if signalTime =? Fence.SIGNAL_TIME_PENDING then
          fences ← (if Nat.eqb (mPendingLimit s) (length (mUnfiredFences s))
                    then eraseBegin (mUnfiredFences s)
                    else Returns (mUnfiredFences s));
          let s := with_mUnfiredFences (fences ++ [f]) s in
          Returns (mMoreSamplesNeeded s, s)
        else
          let s := with_mTracker (Tracker.addVsyncTimestamp signalTime (mTracker s)) s in
          Returns (mMoreSamplesNeeded s, s)
  end.

Definition setIgnorePresentFences (ignoration : bool) (s : t) : t :=
  let s := with_mIgnorePresentFences ignoration s in
  if mIgnorePresentFences s then with_mUnfiredFences [] s else s.

(** [periodOffset] is an [int]; the product and the sum are computed in
    [nsecs_t]. *)
Definition computeNextRefresh (periodOffset : Z) (s : t) : nsecs_t :=
  let now := Clock.now (mClock s) in
  let currentPeriod :=
    if periodOffset =? 0 then 0 else Tracker.currentPeriod (mTracker s) in
  Tracker.nextAnticipatedVSyncTimeFrom
    (Nsecs.add now (Nsecs.mul periodOffset currentPeriod)) (mTracker s).

Definition expectedPresentTime (s : t) : nsecs_t :=
  Tracker.nextAnticipatedVSyncTimeFrom (Clock.now (mClock s)) (mTracker s).

Definition startPeriodTransition (newPeriod : nsecs_t) (s : t) : t :=
  with_mMoreSamplesNeeded true (with_mPeriodTransitioningTo (Some newPeriod) s).

Definition endPeriodTransition (s : t) : t :=
  with_mMoreSamplesNeeded false
    (with_mLastHwVsync None (with_mPeriodTransitioningTo None s)).

Definition getPeriod (s : t) : nsecs_t := Tracker.currentPeriod (mTracker s).

Definition setPeriod (period : nsecs_t) (s : t) : t :=
  let s := with_mLastHwVsync None s in
  if period =? getPeriod s then endPeriodTransition s
  else startPeriodTransition period s.

Definition beginResync (s : t) : t := s.
Definition endResync (s : t) : t := s.

Definition periodChangeDetected (vsync_timestamp : nsecs_t) (s : t) : bool :=
  match mLastHwVsync s, mPeriodTransitioningTo s with
  | Some lastHwVsync, Some periodTransitioningTo =>
      let distance := Nsecs.sub vsync_timestamp lastHwVsync in
      Nsecs.abs (Nsecs.sub distance periodTransitioningTo)
        <? Nsecs.abs (Nsecs.sub distance (getPeriod s))
  | _, _ => false
  end.

(** [*opt] on a [std::optional]: undefined when disengaged. *)
Definition deref {A : Type} (opt : option A) : Outcome A :=
  match opt with
  | Some a => Returns a
  | None => Undefined
  end.

(** The result pairs the returned flag with what is stored through
    [periodFlushed]. *)
Definition addResyncSample (timestamp : nsecs_t) (s : t) : Outcome ((bool * bool) * t) :=
  '(periodFlushed, s) ←
    (if periodChangeDetected timestamp s then
       period ← deref (mPeriodTransitioningTo s);
       let s := with_mTracker (Tracker.setPeriod period (mTracker s)) s in
       let s := with_mCallbacks (CallbackRepeater.setPeriod period <$> mCallbacks s) s in
       Returns (true, endPeriodTransition s)
     else if mPeriodTransitioningTo s is Some _ then
       Returns (false, with_mMoreSamplesNeeded true (with_mLastHwVsync (Some timestamp) s))
     else
       Returns (false, with_mMoreSamplesNeeded false s));
  let s := with_mTracker (Tracker.addVsyncTimestamp timestamp (mTracker s)) s in
  Returns ((mMoreSamplesNeeded s, periodFlushed), s).

Definition maxListeners : nat := 3.

(** [it->second->start(phase)] on the entry of [callback]. *)
Definition startEntry (callback : Callback) (phase : nsecs_t)
    (repeater : CallbackRepeater.t) (s : t) : Outcome (status_t * t) :=
  '(repeater, dispatch) ← CallbackRepeater.start phase repeater (mDispatch s);
  Returns (NO_ERROR,
           with_mDispatch dispatch (with_mCallbacks (<[callback := repeater]> (mCallbacks s)) s)).

Definition addEventListener (name : string) (phase : nsecs_t) (callback : Callback)
    (s : t) : Outcome (status_t * t) :=
  match mCallbacks s !! callback with
  | None =>
      if Nat.leb maxListeners (size (mCallbacks s)) then Returns (NO_MEMORY, s)
      else
        let period := Tracker.currentPeriod (mTracker s) in
        let '(repeater, dispatch) :=
          CallbackRepeater.new callback name period phase (Clock.now (mClock s))
            (mDispatch s) in
        let s := with_mDispatch dispatch
                   (with_mCallbacks (<[callback := repeater]> (mCallbacks s)) s) in
        startEntry callback phase repeater s
  | Some repeater => startEntry callback phase repeater s
  end.

Definition removeEventListener (callback : Callback) (s : t) : Outcome (status_t * t) :=
  match mCallbacks s !! callback with
  | None => Fatal "callback %p not registered"
  | Some repeater =>
      '(repeater, dispatch) ← CallbackRepeater.stop repeater (mDispatch s);
      Returns (NO_ERROR,
               with_mDispatch dispatch
                 (with_mCallbacks (<[callback := repeater]> (mCallbacks s)) s))
  end.

Definition changePhaseOffset (callback : Callback) (phase : nsecs_t) (s : t)
    : Outcome (status_t * t) :=
  match mCallbacks s !! callback with
  | None => Fatal "callback was %p not registered"
  | Some repeater => startEntry callback phase repeater s
  end.

Definition reset (s : t) : t := s.

(** A sequence of [addPresentFence] calls, each with the fences' signal
    times as they stand at that call; the flags returned on the way are
    dropped. *)
Fixpoint addPresentFences (calls : list (option FenceTime * FenceSignals)) (s : t)
    : Outcome t :=
  match calls with
  | [] => Returns s
  | (fence, signals) :: rest =>
      '(_, s) ← addPresentFence fence signals s;
      addPresentFences rest s
  end.

(** What [addPresentFence] leaves in the backlog for a pending fence: the
    fences still pending, less the oldest when they fill the limit, then
    the new fence. *)
Definition backlogAfterPending (f : FenceTime) (signals : FenceSignals) (s : t)
    : list FenceTime :=
  let kept := filter (λ it, signals it = Fence.SIGNAL_TIME_PENDING) (mUnfiredFences s) in
  (if Nat.eqb (mPendingLimit s) (length kept) then tail kept else kept) ++ [f].

(** The public methods that change the reactor, as a caller issues them. *)
Inductive Method : Type :=
| AddPresentFence (fence : option FenceTime) (signals : FenceSignals)
| SetIgnorePresentFences (ignoration : bool)
| SetPeriod (period : nsecs_t)
| BeginResync
| EndResync
| AddResyncSample (timestamp : nsecs_t)
| AddEventListener (name : string) (phase : nsecs_t) (callback : Callback)
| RemoveEventListener (callback : Callback)
| ChangePhaseOffset (callback : Callback) (phase : nsecs_t)
| Reset.

(** One method call, its result dropped. *)
Definition invoke (m : Method) (s : t) : Outcome t :=
  match m with
  | AddPresentFence fence signals => snd <$> addPresentFence fence signals s
  | SetIgnorePresentFences ignoration => Returns (setIgnorePresentFences ignoration s)
  | SetPeriod period => Returns (setPeriod period s)
  | BeginResync => Returns (beginResync s)
  | EndResync => Returns (endResync s)
  | AddResyncSample timestamp => snd <$> addResyncSample timestamp s
  | AddEventListener name phase callback => snd <$> addEventListener name phase callback s
  | RemoveEventListener callback => snd <$> removeEventListener callback s
  | ChangePhaseOffset callback phase => snd <$> changePhaseOffset callback phase s
  | Reset => Returns (reset s)
  end.

(** A sequence of method calls; it stops at the first that does not
    return. *)
Fixpoint invokeAll (ms : list Method) (s : t) : Outcome t :=
  match ms with
  | [] => Returns s
  | m :: rest => s ← invoke m s; invokeAll rest s
  end.

(** The signal times of the fences that have settled, in the order of the
    fences. *)
Definition settledTimes (signals : FenceSignals) (fences : list FenceTime)
    : list nsecs_t :=
  filter (λ time, time ≠ Fence.SIGNAL_TIME_PENDING ∧ time ≠ Fence.SIGNAL_TIME_INVALID)
         (signals <$> fences).

(** How a listener method changes the map: it replaces the entry of a
    registered identity by a repeater for the same listener, or adds an
    entry for an unseen identity to a map with room, or changes nothing. *)
Definition sameOrOneEntry (m m' : gmap Callback CallbackRepeater.t) : Prop :=
  m' = m
  ∨ ∃ callback r,
      m' = <[callback := r]> m
      ∧ ((∃ r0, m !! callback = Some r0
                ∧ CallbackRepeater.mCallback r = CallbackRepeater.mCallback r0)
         ∨ (m !! callback = None ∧ (size m < 3)%nat
            ∧ CallbackRepeater.mCallback r = callback)).

End WithCollaborators.

Arguments t : clear implicits.

End VSyncReactor.

(** ** Concrete reactors *)

(** Reactors over a logged fixed-period tracker, a recording dispatcher and
    a standing clock, on which the methods can be run. *)
Module Scenario.
Import VSyncReactor.

Abbreviation TrackerState := (Tracker.Logged Tracker.FixedPeriod).
Abbreviation Reactor := (VSyncReactor.t TrackerState Dispatch.Recording Clock.Fixed).

Definition period60Hz : nsecs_t := 16666666.
Definition period90Hz : nsecs_t := 11111111.

Definition tracker0 : TrackerState :=
  Tracker.mkLogged (Tracker.mkFixedPeriod period60Hz) [].
Definition dispatch0 : Dispatch.Recording := Dispatch.mkRecording 0%N [].
Definition clock0 : Clock.Fixed := Clock.mkFixed 1000.

(** A freshly constructed reactor with the given fence limit. *)
Definition fresh (pendingFenceLimit : nat) : Reactor :=
  VSyncReactor.new clock0 dispatch0 tracker0 pendingFenceLimit.

Definition F1 : FenceTime := 1%N.
Definition F2 : FenceTime := 2%N.
Definition F3 : FenceTime := 3%N.

Definition allPending : FenceSignals := λ _, Fence.SIGNAL_TIME_PENDING.
Definition allSignalledAt (time : nsecs_t) : FenceSignals := λ _, time.

(** The state a call leaves behind; the given state when the call does not
    return. *)
Definition stateAfter {A : Type} (o : Outcome (A * Reactor)) (otherwise : Reactor)
    : Reactor :=
  match o with
  | Returns (_, s) => s
  | _ => otherwise
  end.

(** A reactor that was told to ignore present fences. *)
Definition ignoring : Reactor := setIgnorePresentFences true (fresh 2).

(** A reactor with the listeners 10, 20 and 30 registered and running. *)
Definition oneListener : Reactor :=
  stateAfter (addEventListener "a" 0 10%N (fresh 2)) (fresh 2).
Definition twoListeners : Reactor :=
  stateAfter (addEventListener "b" 1000 20%N oneListener) oneListener.
Definition threeListeners : Reactor :=
  stateAfter (addEventListener "c" 2000 30%N twoListeners) twoListeners.

(** A reactor told to keep the period it has: no transition is in flight
    and [mMoreSamplesNeeded] was set to false. *)
Definition idle : Reactor := setPeriod period60Hz (fresh 2).

(** A reactor whose backlog holds two fences, as many as its limit. *)
Definition backlogFull : Reactor := with_mUnfiredFences [F1; F2] (fresh 2).

(** The reactor with three listeners after listener 10 was removed. *)
Definition oneRemoved : Reactor :=
  stateAfter (removeEventListener 10%N threeListeners) threeListeners.

(** A reactor in the middle of a transition from 60Hz to 90Hz that has seen
    a hardware vsync at 10000. *)
Definition transitioning : Reactor :=
  with_mLastHwVsync (Some 10000) (setPeriod period90Hz (fresh 2)).

(** Signal times at which fence 1 has settled at 100 and fence 3 at 300,
    every other fence still pending. *)
Definition someSettled : FenceSignals :=
  λ f, if (f =? F1)%N then 100 else if (f =? F3)%N then 300
       else Fence.SIGNAL_TIME_PENDING.

(** The reactor with three listeners, in the middle of a transition to 90Hz
    with the anchor 10000. *)
Definition listenersTransitioning : Reactor :=
  with_mLastHwVsync (Some 10000) (setPeriod period90Hz threeListeners).

(** A session: four listeners ask to be added, one is removed, two fences
    and a period change with its two samples come in. *)
Definition session : list Method :=
  [ AddEventListener "a" 0 10%N; AddEventListener "b" 1000 20%N;
    AddPresentFence (Some F1) allPending;
    AddEventListener "c" 2000 30%N; AddEventListener "d" 3000 40%N;
    RemoveEventListener 10%N;
    SetPeriod period90Hz; AddResyncSample 10000;
    AddPresentFence (Some F2) someSettled;
    AddResyncSample (10000 + period90Hz); ChangePhaseOffset 20%N 500 ].

Definition afterSession : Reactor :=
  match invokeAll session (fresh 2) with
  | Returns s => s
  | _ => fresh 2
  end.

(** A running repeater for listener 10. *)
Definition repeater10 : CallbackRepeater.t :=
  CallbackRepeater.mk 10%N 0%N false period60Hz 1000 5000.

End Scenario.

(** * Properties *)

(** ** Arithmetic on [nsecs_t] *)

Lemma wrap_representable (z : Z) : Nsecs.representable z → Nsecs.wrap z = z.
Proof.
  unfold Nsecs.representable, Nsecs.wrap, Nsecs.INT64_MIN, Nsecs.INT64_MAX.
  intros Hz. rewrite Z.mod_small; lia.
Qed.

Lemma abs_representable (z : Z) :
  Nsecs.representable (Z.abs z) → Nsecs.representable z.
Proof.
  unfold Nsecs.representable, Nsecs.INT64_MIN, Nsecs.INT64_MAX. lia.
Qed.

Lemma pending_not_invalid : Fence.SIGNAL_TIME_PENDING ≠ Fence.SIGNAL_TIME_INVALID.
Proof. discriminate. Qed.

Section ReactorProperties.
Context {T D C : Type}.
Context `{Tracker.VSyncTracker T} `{Dispatch.VSyncDispatch D} `{Clock.Clock C}.
Import VSyncReactor.

Implicit Types (s : VSyncReactor.t T D C) (f : FenceTime) (signals : FenceSignals).

(** *** The backlog drain *)

(** Draining keeps exactly the fences that are still pending, in order. *)
Lemma drainUnfiredFences_kept signals (fences : list FenceTime) (tracker : T) :
  (drainUnfiredFences signals fences tracker).1
  = filter (λ it, signals it = Fence.SIGNAL_TIME_PENDING) fences.
Proof.
  revert tracker. induction fences as [|it rest IH]; intros tracker; [done|].
  cbn [drainUnfiredFences]. rewrite filter_cons.
  destruct (Z.eqb_spec (signals it) Fence.SIGNAL_TIME_PENDING) as [Hp|Hp].
  - specialize (IH tracker).
    destruct (drainUnfiredFences signals rest tracker) as [kept tracker'].
    rewrite decide_True by done. cbn in *. by rewrite IH.
  - rewrite decide_False by done.
    destruct (signals it =? Fence.SIGNAL_TIME_INVALID); apply IH.
Qed.

Lemma drainUnfiredFences_length signals (fences : list FenceTime) (tracker : T) :
  (length (drainUnfiredFences signals fences tracker).1 ≤ length fences)%nat.
Proof. rewrite drainUnfiredFences_kept. apply length_filter. Qed.

(** A backlog of pending fences drains to itself and leaves the tracker
    alone. *)
Lemma drainUnfiredFences_all_pending signals (fences : list FenceTime) (tracker : T) :
  Forall (λ it, signals it = Fence.SIGNAL_TIME_PENDING) fences →
  drainUnfiredFences signals fences tracker = (fences, tracker).
Proof.
  induction 1 as [|it rest Hit _ IH]; [done|].
  cbn [drainUnfiredFences]. rewrite Hit, Z.eqb_refl, IH. done.
Qed.

(** *** addPresentFence *)

(** C1 (as amended): for every non-null fence, when present fences are
    ignored ([mIgnorePresentFences] is true), [addPresentFence] returns
    [true] -- the "more samples wanted" value, not [false] -- and does
    nothing else: the reactor, with its backlog and its tracker, is left
    exactly as it was. *)
Theorem addPresentFence_ignoring f signals s :
  mIgnorePresentFences s = true →
  addPresentFence (Some f) signals s = Returns (true, s).
Proof.
  intros Hign. unfold addPresentFence. rewrite Hign.
  by destruct (signals f =? Fence.SIGNAL_TIME_INVALID).
Qed.

(** A pending fence, with fences not ignored: the call returns unless it
    erases from an empty backlog, and then it returns the stored hint and
    has put the fence at the back of the backlog. *)
Lemma addPresentFence_pending f signals s :
  signals f = Fence.SIGNAL_TIME_PENDING →
  mIgnorePresentFences s = false →
  let drained := drainUnfiredFences signals (mUnfiredFences s) (mTracker s) in
  addPresentFence (Some f) signals s =
    if Nat.eqb (mPendingLimit s) (length drained.1) && bool_decide (drained.1 = [])
    then Undefined
    else Returns (mMoreSamplesNeeded s,
                  with_mUnfiredFences (backlogAfterPending f signals s)
                    (with_mTracker drained.2 s)).
Proof.
  intros Hp Hign drained. unfold addPresentFence, backlogAfterPending.
  rewrite Hp, Hign. change (Fence.SIGNAL_TIME_PENDING =? Fence.SIGNAL_TIME_INVALID) with false.
  rewrite Z.eqb_refl. cbv iota.
  rewrite <- (drainUnfiredFences_kept signals (mUnfiredFences s) (mTracker s)).
  fold drained. destruct drained as [kept tracker]. cbn.
  destruct (Nat.eqb (mPendingLimit s) (length kept)); [|done].
  by destruct kept.
Qed.

(** C2 (as amended): the fence that makes [addPresentFence] return at once
    is the INVALID one, not the PENDING one: for every non-null fence whose
    signal time is INVALID the call returns [true] and changes nothing,
    whether or not fences are ignored.  A PENDING fence, with fences not
    ignored and a limit of at least one, is put at the back of the drained
    backlog, and the call returns the stored [mMoreSamplesNeeded]. *)
Theorem addPresentFence_invalid_or_pending f signals s :
  (signals f = Fence.SIGNAL_TIME_INVALID →
     addPresentFence (Some f) signals s = Returns (true, s)) ∧
  (signals f = Fence.SIGNAL_TIME_PENDING →
   mIgnorePresentFences s = false →
   (1 ≤ mPendingLimit s)%nat →
     ∃ s', addPresentFence (Some f) signals s = Returns (mMoreSamplesNeeded s, s')
           ∧ mUnfiredFences s' = backlogAfterPending f signals s
           ∧ last (mUnfiredFences s') = Some f).
Proof.
  split.
  - intros Hinv. unfold addPresentFence. by rewrite Hinv, Z.eqb_refl.
  - intros Hp Hign Hlim. rewrite addPresentFence_pending by done.
    destruct (drainUnfiredFences signals (mUnfiredFences s) (mTracker s))
      as [kept tracker] eqn:Hdrain. cbn [fst snd].
    assert (Nat.eqb (mPendingLimit s) (length kept) && bool_decide (kept = []) = false)
      as ->.
    { destruct (Nat.eqb_spec (mPendingLimit s) (length kept)) as [Heq|]; [|done].
      destruct kept; [cbn in Heq; lia|done]. }
    eexists. split; [done|]. cbn. split; [done|].
    unfold backlogAfterPending. apply last_snoc.
Qed.

(** One call keeps the backlog within the limit, and never changes the
    limit. *)
Lemma addPresentFence_preserves_bound (fence : option FenceTime) signals s b s' :
  (length (mUnfiredFences s) ≤ mPendingLimit s)%nat →
  addPresentFence fence signals s = Returns (b, s') →
  (length (mUnfiredFences s') ≤ mPendingLimit s')%nat
  ∧ mPendingLimit s' = mPendingLimit s.
Proof.
  intros Hbound. unfold addPresentFence.
  destruct fence as [f|]; [|by intros [= <- <-]].
  destruct (signals f =? Fence.SIGNAL_TIME_INVALID); [by intros [= <- <-]|].
  destruct (mIgnorePresentFences s); [by intros [= <- <-]|].
  pose proof (drainUnfiredFences_length signals (mUnfiredFences s) (mTracker s)) as Hlen.
  destruct (drainUnfiredFences signals (mUnfiredFences s) (mTracker s))
    as [kept tracker]. cbn [fst] in Hlen.
  destruct (signals f =? Fence.SIGNAL_TIME_PENDING); cbn.
  - destruct (Nat.eqb_spec (mPendingLimit s) (length kept)) as [Heq|Hne].
    + destruct kept as [|oldest rest]; [done|]. cbn. intros [= <- <-]. cbn.
      rewrite length_app. cbn in *. lia.
    + cbn. intros [= <- <-]. cbn. rewrite length_app. cbn. lia.
  - intros [= <- <-]. cbn. lia.
Qed.

Lemma addPresentFences_preserves_bound (calls : list (option FenceTime * FenceSignals)) s s' :
  (length (mUnfiredFences s) ≤ mPendingLimit s)%nat →
  addPresentFences calls s = Returns s' →
  (length (mUnfiredFences s') ≤ mPendingLimit s')%nat
  ∧ mPendingLimit s' = mPendingLimit s.
Proof.
  revert s. induction calls as [|[fence signals] rest IH]; intros s Hbound.
  - by intros [= <-].
  - cbn [addPresentFences].
    destruct (addPresentFence fence signals s) as [[b s1]| |] eqn:Hstep; [|done..].
    cbn. intros Hrest.
    destruct (addPresentFence_preserves_bound _ _ _ _ _ Hbound Hstep) as [Hb1 Hl1].
    destruct (IH s1 Hb1 Hrest) as [Hb' Hl']. split; [done|congruence].
Qed.

(** With nothing in the backlog settled, a pending fence leaves the tracker
    alone. *)
Lemma addPresentFence_none_settled f signals s :
  signals f = Fence.SIGNAL_TIME_PENDING →
  mIgnorePresentFences s = false →
  Forall (λ it, signals it = Fence.SIGNAL_TIME_PENDING) (mUnfiredFences s) →
  (1 ≤ mPendingLimit s)%nat →
  addPresentFence (Some f) signals s =
    Returns (mMoreSamplesNeeded s,
             with_mUnfiredFences
               ((if Nat.eqb (mPendingLimit s) (length (mUnfiredFences s))
                 then tail (mUnfiredFences s) else mUnfiredFences s) ++ [f]) s).
Proof.
  intros Hp Hign Hall Hlim. rewrite addPresentFence_pending by done.
  rewrite drainUnfiredFences_all_pending by done. cbn [fst snd].
  unfold backlogAfterPending.
  replace (filter _ (mUnfiredFences s)) with (mUnfiredFences s).
  2:{ clear -Hall. induction Hall as [|it rest Hit _ IH]; [done|].
      rewrite filter_cons, decide_True by done. by rewrite <- IH. }
  destruct s as [? ? ? limit ? fences ? ? ? ?]. cbn in *.
  destruct (Nat.eqb_spec limit (length fences)) as [->|]; [|done].
  destruct fences; [cbn in Hlim; lia|done].
Qed.

(** With a limit of at least one, a call always returns. *)
Lemma addPresentFence_returns (fence : option FenceTime) signals s :
  (1 ≤ mPendingLimit s)%nat →
  ∃ b s', addPresentFence fence signals s = Returns (b, s')
          ∧ mPendingLimit s' = mPendingLimit s.
Proof.
  intros Hlim. unfold addPresentFence.
  destruct fence as [f|]; [|by eauto].
  destruct (signals f =? Fence.SIGNAL_TIME_INVALID); [by eauto|].
  destruct (mIgnorePresentFences s); [by eauto|].
  destruct (drainUnfiredFences signals (mUnfiredFences s) (mTracker s))
    as [kept tracker].
  destruct (signals f =? Fence.SIGNAL_TIME_PENDING); cbn; [|by eauto].
  destruct (Nat.eqb_spec (mPendingLimit s) (length kept)) as [Heq|Hne]; [|by eauto].
  destruct kept as [|oldest rest]; [cbn in Heq; lia|]. cbn. by eauto.
Qed.

Lemma addPresentFences_returns (calls : list (option FenceTime * FenceSignals)) s :
  (1 ≤ mPendingLimit s)%nat →
  ∃ s', addPresentFences calls s = Returns s'.
Proof.
  revert s. induction calls as [|[fence signals] rest IH]; intros s Hlim; [by eexists|].
  cbn [addPresentFences].
  destruct (addPresentFence_returns fence signals s Hlim) as (b & s1 & -> & Hl).
  cbn. apply IH. lia.
Qed.

(** C4: from a backlog within [mPendingLimit], every sequence of
    [addPresentFence] calls that runs through leaves the backlog within the
    limit (and with a limit of at least one every sequence does run
    through); a pending fence that finds the fences still pending at the limit
    evicts exactly the oldest of them and goes to the back; and with a limit
    of two, three pending fences in a row leave the second and the third, in
    that order. *)
Theorem backlog_never_exceeds_limit (calls : list (option FenceTime * FenceSignals)) s :
  (length (mUnfiredFences s) ≤ mPendingLimit s)%nat →
  (∀ s', addPresentFences calls s = Returns s' →
     (length (mUnfiredFences s') ≤ mPendingLimit s')%nat
     ∧ mPendingLimit s' = mPendingLimit s)
  ∧ ((1 ≤ mPendingLimit s)%nat → ∃ s', addPresentFences calls s = Returns s')
  ∧ (∀ f signals oldest rest,
       mIgnorePresentFences s = false →
       signals f = Fence.SIGNAL_TIME_PENDING →
       filter (λ it, signals it = Fence.SIGNAL_TIME_PENDING) (mUnfiredFences s)
         = oldest :: rest →
       length (oldest :: rest) = mPendingLimit s →
       ∃ s', addPresentFence (Some f) signals s = Returns (mMoreSamplesNeeded s, s')
             ∧ mUnfiredFences s' = rest ++ [f])
  ∧ (∀ f1 f2 f3 signals,
       mPendingLimit s = 2%nat →
       mUnfiredFences s = [] →
       mIgnorePresentFences s = false →
       signals f1 = Fence.SIGNAL_TIME_PENDING →
       signals f2 = Fence.SIGNAL_TIME_PENDING →
       signals f3 = Fence.SIGNAL_TIME_PENDING →
       ∃ s', addPresentFences
               [(Some f1, signals); (Some f2, signals); (Some f3, signals)] s
             = Returns s'
             ∧ mUnfiredFences s' = [f2; f3]).
Proof.
  intros Hbound. split; [|split; [|split]].
  - intros s'. by apply addPresentFences_preserves_bound.
  - apply addPresentFences_returns.
  - intros f signals oldest rest Hign Hp Hkept Hfull.
    rewrite addPresentFence_pending by done.
    rewrite drainUnfiredFences_kept, Hkept, <- Hfull, Nat.eqb_refl. cbn.
    eexists. split; [done|]. cbn. unfold backlogAfterPending.
    by rewrite Hkept, <- Hfull, Nat.eqb_refl.
  - intros f1 f2 f3 signals Hlim Hempty Hign Hp1 Hp2 Hp3.
    destruct s as [? ? ? limit ignore fences ? ? ? ?]. cbn in Hlim, Hempty, Hign.
    subst limit fences ignore. cbn [addPresentFences].
    rewrite addPresentFence_none_settled by (done || cbn; lia).
    cbn [mbind Outcome_bind].
    rewrite addPresentFence_none_settled by (done || by repeat constructor || cbn; lia).
    cbn [mbind Outcome_bind].
    rewrite addPresentFence_none_settled by (done || by repeat constructor || cbn; lia).
    cbn. eexists. split; done.
Qed.

(** C10: with [mPendingLimit] at least one, whenever [addPresentFence]
    reaches the eviction (the new fence is pending and the fences still
    pending number exactly the limit) the backlog it erases from is not
    empty, so the undefined erase is never run: every call, and every
    sequence of calls, returns.  The limit is needed: with a limit of zero a
    pending fence arriving at an empty backlog runs the erase on the empty
    backlog. *)
Theorem eviction_finds_oldest (fence : option FenceTime) signals s
    (calls : list (option FenceTime * FenceSignals)) :
  (1 ≤ mPendingLimit s)%nat →
  (∀ f, fence = Some f →
        signals f = Fence.SIGNAL_TIME_PENDING →
        mPendingLimit s
          = length (drainUnfiredFences signals (mUnfiredFences s) (mTracker s)).1 →
        (drainUnfiredFences signals (mUnfiredFences s) (mTracker s)).1 ≠ []
        ∧ eraseBegin (drainUnfiredFences signals (mUnfiredFences s) (mTracker s)).1
            ≠ Undefined)
  ∧ addPresentFence fence signals s ≠ Undefined
  ∧ (∃ b s', addPresentFence fence signals s = Returns (b, s'))
  ∧ (∃ s', addPresentFences calls s = Returns s')
  ∧ (∀ f0 signals0 s0,
       mPendingLimit s0 = 0%nat →
       mUnfiredFences s0 = [] →
       mIgnorePresentFences s0 = false →
       signals0 f0 = Fence.SIGNAL_TIME_PENDING →
       addPresentFence (Some f0) signals0 s0 = Undefined).
Proof.
  intros Hlim. split; [|split; [|split; [|split]]].
  - intros f _ _ Heq.
    destruct (drainUnfiredFences signals (mUnfiredFences s) (mTracker s)).1;
      [cbn in Heq; lia|done].
  - by destruct (addPresentFence_returns fence signals s Hlim) as (b & s' & -> & _).
  - destruct (addPresentFence_returns fence signals s Hlim) as (b & s' & -> & _).
    by eauto.
  - by apply addPresentFences_returns.
  - intros f0 signals0 s0 Hzero Hempty Hign Hp.
    rewrite addPresentFence_pending by done. by rewrite Hempty, Hzero.
Qed.

(** *** addResyncSample *)

(** Where the subtractions and absolute values of [periodChangeDetected] do
    not overflow, its verdict is the comparison of the two distances over
    the integers. *)
Lemma periodChangeDetected_no_overflow (timestamp A Pnew : nsecs_t) s :
  mPeriodTransitioningTo s = Some Pnew →
  mLastHwVsync s = Some A →
  Nsecs.representable (timestamp - A) →
  Nsecs.representable (Z.abs (timestamp - A - Pnew)) →
  Nsecs.representable (Z.abs (timestamp - A - getPeriod s)) →
  periodChangeDetected timestamp s
  = bool_decide (Z.abs (timestamp - A - Pnew) < Z.abs (timestamp - A - getPeriod s)).
Proof.
  intros Hto Hlast Hd Hnew Hold. unfold periodChangeDetected.
  rewrite Hto, Hlast. unfold Nsecs.abs, Nsecs.sub.
  rewrite (wrap_representable (timestamp - A)) by done.
  rewrite (wrap_representable (timestamp - A - Pnew)) by by apply abs_representable.
  rewrite (wrap_representable (timestamp - A - getPeriod s)) by by apply abs_representable.
  rewrite !wrap_representable by done.
  destruct (Z.ltb_spec (Z.abs (timestamp - A - Pnew)) (Z.abs (timestamp - A - getPeriod s)));
    [by rewrite bool_decide_eq_true_2|by rewrite bool_decide_eq_false_2 by lia].
Qed.

(** Without an anchor or without a target no change is detected. *)
Lemma periodChangeDetected_true (timestamp : nsecs_t) s :
  periodChangeDetected timestamp s = true →
  is_Some (mLastHwVsync s) ∧ is_Some (mPeriodTransitioningTo s).
Proof.
  unfold periodChangeDetected.
  destruct (mLastHwVsync s), (mPeriodTransitioningTo s); by eauto.
Qed.

Lemma setPeriod_mPeriod (period : nsecs_t) (r : CallbackRepeater.t) :
  CallbackRepeater.setPeriod period r
  = CallbackRepeater.mk (CallbackRepeater.mCallback r) (CallbackRepeater.mRegistration r)
      (CallbackRepeater.mStopped r) period (CallbackRepeater.mOffset r)
      (CallbackRepeater.mLastCallTime r).
Proof.
  unfold CallbackRepeater.setPeriod.
  destruct (Z.eqb_spec period (CallbackRepeater.mPeriod r)) as [->|]; by destruct r.
Qed.

(** C3: with a transition to [Pnew] in flight and the anchor [A], and where
    the [nsecs_t] arithmetic of the comparison does not overflow,
    [addResyncSample timestamp] commits exactly when
    |(timestamp - A) - Pnew| < |(timestamp - A) - Pold|, [Pold] being the
    tracker's current period.  On commit the new period goes to the tracker
    and to every registered repeater, the transition state is cleared and
    periodFlushed is true; otherwise the target stays, the anchor becomes
    [timestamp], more samples are wanted and periodFlushed is false. *)
Theorem tie_break_law (timestamp A Pnew : nsecs_t) s :
  mPeriodTransitioningTo s = Some Pnew →
  mLastHwVsync s = Some A →
  Nsecs.representable (timestamp - A) →
  Nsecs.representable (Z.abs (timestamp - A - Pnew)) →
  Nsecs.representable (Z.abs (timestamp - A - Tracker.currentPeriod (mTracker s))) →
  ∃ more flushed s',
    addResyncSample timestamp s = Returns ((more, flushed), s')
    ∧ (flushed = true ↔
         Z.abs (timestamp - A - Pnew)
           < Z.abs (timestamp - A - Tracker.currentPeriod (mTracker s)))
    ∧ (flushed = true →
         more = false
         ∧ s' = mk (mClock s)
                  (Tracker.addVsyncTimestamp timestamp
                     (Tracker.setPeriod Pnew (mTracker s)))
                  (mDispatch s) (mPendingLimit s) (mIgnorePresentFences s)
                  (mUnfiredFences s) false None None
                  (CallbackRepeater.setPeriod Pnew <$> mCallbacks s)
         ∧ ∀ cb r, mCallbacks s !! cb = Some r →
             mCallbacks s' !! cb
             = Some (CallbackRepeater.mk (CallbackRepeater.mCallback r)
                       (CallbackRepeater.mRegistration r) (CallbackRepeater.mStopped r)
                       Pnew (CallbackRepeater.mOffset r) (CallbackRepeater.mLastCallTime r)))
    ∧ (flushed = false →
         more = true
         ∧ s' = mk (mClock s) (Tracker.addVsyncTimestamp timestamp (mTracker s))
                  (mDispatch s) (mPendingLimit s) (mIgnorePresentFences s)
                  (mUnfiredFences s) true (Some Pnew) (Some timestamp) (mCallbacks s)).
Proof.
  intros Hto Hlast Hd Hnew Hold. unfold addResyncSample.
  rewrite (periodChangeDetected_no_overflow timestamp A Pnew s) by done.
  unfold getPeriod. rewrite Hto. case_bool_decide as Hlt; cbn.
  - eexists _, _, _. split; [done|]. split; [done|]. split; [|done].
    intros _. split; [done|]. split; [done|].
    intros cb r Hr. cbn [mCallbacks with_mTracker endPeriodTransition
      with_mMoreSamplesNeeded with_mLastHwVsync with_mPeriodTransitioningTo with_mCallbacks].
    rewrite lookup_fmap, Hr. cbn [fmap option_fmap option_map]. by rewrite setPeriod_mPeriod.
  - eexists _, _, _. split; [done|]. split; [split; [done|by intros ?]|].
    split; [done|]. intros _. unfold with_mTracker. cbn. by rewrite Hto.
Qed.

End ReactorProperties.

Section LoggedTracker.
Context {T D C : Type}.
Context `{Tracker.VSyncTracker T} `{Dispatch.VSyncDispatch D} `{Clock.Clock C}.
Import VSyncReactor.

Lemma vsyncSamples_app (cs1 cs2 : list Tracker.Call) :
  Tracker.vsyncSamples (cs1 ++ cs2) = Tracker.vsyncSamples cs1 ++ Tracker.vsyncSamples cs2.
Proof.
  induction cs1 as [|[ts|p] cs1 IH]; cbn; [done| |done]. by rewrite IH.
Qed.

(** C5: every call of [addResyncSample], whichever branch it takes, returns
    and has handed its timestamp to the tracker exactly once, as the last
    thing done to the tracker: the samples the tracker has received are
    those it had, followed by the timestamp.  With no transition in flight
    the call reports that no more samples are wanted and that no period was
    flushed, and the sample is the only call the tracker receives. *)
Theorem addResyncSample_forwards_once (timestamp : nsecs_t)
    (s : VSyncReactor.t (Tracker.Logged T) D C) :
  ∃ more flushed s',
    addResyncSample timestamp s = Returns ((more, flushed), s')
    ∧ Tracker.vsyncSamples (Tracker.calls (mTracker s'))
      = Tracker.vsyncSamples (Tracker.calls (mTracker s)) ++ [timestamp]
    ∧ last (Tracker.calls (mTracker s')) = Some (Tracker.AddVsyncTimestamp timestamp)
    ∧ (mPeriodTransitioningTo s = None →
         more = false ∧ flushed = false
         ∧ Tracker.calls (mTracker s')
           = Tracker.calls (mTracker s) ++ [Tracker.AddVsyncTimestamp timestamp]).
Proof.
  unfold addResyncSample.
  destruct (periodChangeDetected timestamp s) eqn:Hdetected.
  - destruct (periodChangeDetected_true _ _ Hdetected) as [_ [period Hto]].
    rewrite Hto. eexists _, _, _. split; [reflexivity|].
    cbn -[Tracker.vsyncSamples last].
    rewrite !vsyncSamples_app, last_snoc. cbn. by rewrite app_nil_r.
  - destruct (mPeriodTransitioningTo s) as [period|];
      (eexists _, _, _; split; [reflexivity|]);
      cbn -[Tracker.vsyncSamples last]; by rewrite !vsyncSamples_app, last_snoc.
Qed.

End LoggedTracker.

Section ListenerProperties.
Context {T D C : Type}.
Context `{Tracker.VSyncTracker T} `{Dispatch.VSyncDispatch D} `{Clock.Clock C}.
Import VSyncReactor.

Implicit Types (s : VSyncReactor.t T D C) (callback : Callback).

(** *** setPeriod *)

(** C7: [setPeriod] always leaves [mLastHwVsync] disengaged; and when the
    period asked for is the tracker's current period, it leaves no transition
    in flight -- target, anchor and [mMoreSamplesNeeded] are cleared
    together -- and everything else, the repeaters included, as it was. *)
Theorem setPeriod_same_period (period : nsecs_t) s :
  mLastHwVsync (setPeriod period s) = None
  ∧ (period = Tracker.currentPeriod (mTracker s) →
       setPeriod period s
       = mk (mClock s) (mTracker s) (mDispatch s) (mPendingLimit s)
            (mIgnorePresentFences s) (mUnfiredFences s) false None None (mCallbacks s)
       ∧ mPeriodTransitioningTo (setPeriod period s) = None
       ∧ mMoreSamplesNeeded (setPeriod period s) = false
       ∧ mCallbacks (setPeriod period s) = mCallbacks s
       ∧ mTracker (setPeriod period s) = mTracker s
       ∧ mDispatch (setPeriod period s) = mDispatch s).
Proof.
  unfold setPeriod, getPeriod. cbn [mTracker with_mLastHwVsync].
  split.
  - by destruct (period =? Tracker.currentPeriod (mTracker s)).
  - intros ->. by rewrite Z.eqb_refl.
Qed.

(** *** Listeners *)

(** Three distinct registered identities fill the map to the cap. *)
Lemma three_registered (c1 c2 c3 : Callback) (m : gmap Callback CallbackRepeater.t) :
  c1 ≠ c2 → c1 ≠ c3 → c2 ≠ c3 →
  is_Some (m !! c1) → is_Some (m !! c2) → is_Some (m !! c3) →
  (3 ≤ size m)%nat.
Proof.
  intros H12 H13 H23 Hc1 Hc2 Hc3.
  rewrite <- (size_dom (D := gset Callback)).
  assert (({[c1; c2; c3]} : gset Callback) ⊆ dom m) as Hsub.
  { intros c. rewrite !elem_of_union, !elem_of_singleton, elem_of_dom.
    intros [[-> | ->] | ->]; done. }
  apply subseteq_size in Hsub.
  rewrite !size_union, !size_singleton in Hsub; [lia|..].
  - by apply disjoint_singleton_l, not_elem_of_singleton.
  - apply disjoint_union_l; split; by apply disjoint_singleton_l, not_elem_of_singleton.
Qed.

(** C6: with three distinct listener identities registered, [addEventListener]
    for a fourth identity not in the map returns [NO_MEMORY] and leaves the
    reactor as it was: the map, its three repeaters and the dispatcher are
    untouched, so no repeater was made. *)
Theorem addEventListener_fourth_rejected (c1 c2 c3 : Callback) (name : string)
    (phase : nsecs_t) callback s :
  c1 ≠ c2 → c1 ≠ c3 → c2 ≠ c3 →
  is_Some (mCallbacks s !! c1) →
  is_Some (mCallbacks s !! c2) →
  is_Some (mCallbacks s !! c3) →
  mCallbacks s !! callback = None →
  addEventListener name phase callback s = Returns (NO_MEMORY, s).
Proof.
  intros H12 H13 H23 Hc1 Hc2 Hc3 Hunseen. unfold addEventListener.
  rewrite Hunseen.
  pose proof (three_registered c1 c2 c3 (mCallbacks s) H12 H13 H23 Hc1 Hc2 Hc3) as Hsize.
  unfold maxListeners. by destruct (Nat.leb_spec 3 (size (mCallbacks s))); [|lia].
Qed.

(** What a successful [removeEventListener] does to the reactor. *)
Lemma removeEventListener_returns callback s (st : status_t) s' :
  removeEventListener callback s = Returns (st, s') →
  ∃ r, mCallbacks s !! callback = Some r
       ∧ CallbackRepeater.mStopped r = false
       ∧ st = NO_ERROR
       ∧ s' = with_mDispatch (Dispatch.cancel (CallbackRepeater.mRegistration r) (mDispatch s)).2
                (with_mCallbacks
                   (<[callback :=
                        CallbackRepeater.mk (CallbackRepeater.mCallback r)
                          (CallbackRepeater.mRegistration r) true
                          (CallbackRepeater.mPeriod r) (CallbackRepeater.mOffset r)
                          (CallbackRepeater.mLastCallTime r)]> (mCallbacks s)) s).
Proof.
  unfold removeEventListener, CallbackRepeater.stop.
  destruct (mCallbacks s !! callback) as [r|]; [|done].
  destruct (CallbackRepeater.mStopped r) eqn:Hstopped; [done|].
  destruct (Dispatch.cancel (CallbackRepeater.mRegistration r) (mDispatch s))
    as [result d'] eqn:Hcancel.
  cbn. intros [= <- <-]. exists r. by rewrite Hcancel.
Qed.

(** C8: removing the same listener twice in a row is fatal: when a
    [removeEventListener] has returned, the next one on the same identity
    aborts on the already-stopped repeater instead of returning a status;
    and so does [removeEventListener] on an identity that is not in the
    map.  (The first removal of a registered, running listener does
    return.) *)
Theorem removeEventListener_twice_fatal callback s :
  (∀ st s', removeEventListener callback s = Returns (st, s') →
            removeEventListener callback s'
            = Fatal "DispSyncInterface misuse: callback already stopped")
  ∧ (mCallbacks s !! callback = None →
       removeEventListener callback s = Fatal "callback %p not registered")
  ∧ (∀ r, mCallbacks s !! callback = Some r →
          CallbackRepeater.mStopped r = false →
          ∃ s', removeEventListener callback s = Returns (NO_ERROR, s')).
Proof.
  split; [|split].
  - intros st s' Hfirst.
    destruct (removeEventListener_returns _ _ _ _ Hfirst) as (r & Hr & Hrun & -> & ->).
    unfold removeEventListener. cbn [mCallbacks with_mDispatch with_mCallbacks].
    by rewrite lookup_insert_eq.
  - intros Hunseen. unfold removeEventListener. by rewrite Hunseen.
  - intros r Hr Hrun. unfold removeEventListener, CallbackRepeater.stop.
    rewrite Hr, Hrun.
    destruct (Dispatch.cancel (CallbackRepeater.mRegistration r) (mDispatch s)).
    cbn. by eexists.
Qed.

(** C9: a [removeEventListener] that returns has stopped the identity's
    repeater and left its entry in the map: the registered identities and
    the size of the map are the same, the other entries are untouched, a
    full map still refuses an unseen identity, and a later
    [addEventListener] for the same identity starts the stopped repeater
    that is there -- same registration, period and last call time -- with
    one [schedule] on the dispatcher and no new registration. *)
Theorem removeEventListener_keeps_entry callback s (st : status_t) s' :
  removeEventListener callback s = Returns (st, s') →
  ∃ r, let stopped :=
         CallbackRepeater.mk (CallbackRepeater.mCallback r)
           (CallbackRepeater.mRegistration r) true (CallbackRepeater.mPeriod r)
           (CallbackRepeater.mOffset r) (CallbackRepeater.mLastCallTime r) in
       mCallbacks s !! callback = Some r
       ∧ mCallbacks s' !! callback = Some stopped
       ∧ dom (mCallbacks s') =@{gset Callback} dom (mCallbacks s)
       ∧ size (mCallbacks s') = size (mCallbacks s)
       ∧ (∀ other, other ≠ callback → mCallbacks s' !! other = mCallbacks s !! other)
       ∧ (∀ (name : string) (phase : nsecs_t) unseen,
            size (mCallbacks s) = 3%nat →
            mCallbacks s !! unseen = None →
            addEventListener name phase unseen s' = Returns (NO_MEMORY, s'))
       ∧ (∀ (name : string) (phase : nsecs_t),
            addEventListener name phase callback s' = startEntry callback phase stopped s')
       ∧ (∀ (name : string) (phase : nsecs_t) (st2 : status_t) s2,
            addEventListener name phase callback s' = Returns (st2, s2) →
            mCallbacks s2 !! callback
            = Some (CallbackRepeater.mk (CallbackRepeater.mCallback r)
                      (CallbackRepeater.mRegistration r) false (CallbackRepeater.mPeriod r)
                      phase (CallbackRepeater.mLastCallTime r))
            ∧ size (mCallbacks s2) = size (mCallbacks s)
            ∧ mDispatch s2
              = (Dispatch.schedule (CallbackRepeater.mRegistration r)
                   (Nsecs.sub (CallbackRepeater.mPeriod r) phase)
                   (CallbackRepeater.mLastCallTime r) (mDispatch s')).2).
Proof.
  intros Hremove.
  destruct (removeEventListener_returns _ _ _ _ Hremove) as (r & Hr & Hrun & -> & ->).
  exists r. cbn zeta. cbn [mCallbacks mDispatch with_mDispatch with_mCallbacks].
  assert (∀ x, size (<[callback := x]> (mCallbacks s)) = size (mCallbacks s)) as Hsize.
  { intros x. by apply map_size_insert_Some. }
  split; [done|]. split; [by rewrite lookup_insert_eq|].
  split; [by apply dom_insert_lookup_L|].
  split; [by apply Hsize|].
  split; [by intros other Hne; rewrite lookup_insert_ne|].
  split.
  { intros name phase unseen Hfull Hunseen. unfold addEventListener.
    cbn [mCallbacks with_mDispatch with_mCallbacks].
    rewrite lookup_insert_ne by (intros ->; congruence).
    by rewrite Hunseen, Hsize, Hfull. }
  split.
  { intros name phase. unfold addEventListener.
    cbn [mCallbacks with_mDispatch with_mCallbacks]. by rewrite lookup_insert_eq. }
  intros name phase st2 s2. unfold addEventListener.
  cbn [mCallbacks with_mDispatch with_mCallbacks]. rewrite lookup_insert_eq.
  unfold startEntry, CallbackRepeater.start, CallbackRepeater.calculateWorkload.
  cbn [mCallbacks mDispatch with_mDispatch with_mCallbacks CallbackRepeater.mCallback
       CallbackRepeater.mRegistration CallbackRepeater.mPeriod CallbackRepeater.mOffset
       CallbackRepeater.mLastCallTime].
  destruct (Dispatch.schedule _ _ _ _) as [[| |] d2]; [|done..].
  cbn. intros [= <- <-]. cbn.
  rewrite lookup_insert_eq. split; [done|]. split; [|done].
  by rewrite insert_insert_eq.
Qed.

End ListenerProperties.

(** ** The properties on concrete reactors *)

Section OnScenarios.
Import VSyncReactor Scenario.

(** C1, as the claim states it, fails: a reactor ignoring present fences
    answers [true], never [false], to a signalled fence. *)
Lemma addPresentFence_ignoring_not_false :
  mIgnorePresentFences ignoring = true
  ∧ addPresentFence (Some F1) (allSignalledAt 5) ignoring = Returns (true, ignoring)
  ∧ ∀ s', addPresentFence (Some F1) (allSignalledAt 5) ignoring ≠ Returns (false, s').
Proof.
  split; [reflexivity|]. split; [reflexivity|].
  intros s' Heq. vm_compute in Heq. discriminate Heq.
Qed.

Lemma addPresentFence_ignoring_witness :
  addPresentFence (Some F1) (allSignalledAt 5) ignoring = Returns (true, ignoring).
Proof. apply addPresentFence_ignoring. reflexivity. Defined.

(** C2, as the claim states it, fails: with fences not ignored, a pending
    fence given to a reactor with an empty backlog is answered with [false]
    and has entered the backlog. *)
Lemma addPresentFence_pending_enters_backlog :
  allPending F1 = Fence.SIGNAL_TIME_PENDING
  ∧ mIgnorePresentFences idle = false
  ∧ mUnfiredFences idle = []
  ∧ addPresentFence (Some F1) allPending idle
    = Returns (false, with_mUnfiredFences [F1] idle)
  ∧ mUnfiredFences (with_mUnfiredFences [F1] idle) ≠ mUnfiredFences idle.
Proof.
  split; [reflexivity|]. split; [reflexivity|]. split; [reflexivity|].
  split; [reflexivity|]. discriminate.
Qed.

Lemma addPresentFence_invalid_or_pending_witness :
  addPresentFence (Some F1) (allSignalledAt Fence.SIGNAL_TIME_INVALID) backlogFull
  = Returns (true, backlogFull)
  ∧ ∃ s', addPresentFence (Some F3) allPending backlogFull = Returns (false, s')
          ∧ mUnfiredFences s' = [F2; F3].
Proof.
  destruct (addPresentFence_invalid_or_pending F1
              (allSignalledAt Fence.SIGNAL_TIME_INVALID) backlogFull) as [Hinvalid _].
  destruct (addPresentFence_invalid_or_pending F3 allPending backlogFull)
    as [_ Hpending].
  split; [apply Hinvalid; reflexivity|].
  destruct (Hpending eq_refl eq_refl) as (s' & Hcall & Hbacklog & _);
    [cbn; lia|].
  exists s'. split; [exact Hcall|exact Hbacklog].
Defined.

Lemma tie_break_law_witness :
  (∃ s', addResyncSample 11121111 transitioning = Returns ((false, true), s')
         ∧ mPeriodTransitioningTo s' = None
         ∧ Tracker.currentPeriod (mTracker s') = period90Hz)
  ∧ (∃ s', addResyncSample 26676666 transitioning = Returns ((true, false), s')
           ∧ mPeriodTransitioningTo s' = Some period90Hz
           ∧ mLastHwVsync s' = Some 26676666).
Proof.
  split.
  - destruct (tie_break_law 11121111 10000 period90Hz transitioning eq_refl eq_refl)
      as (more & flushed & s' & Hcall & Hiff & Hcommit & _);
      [vm_compute; split; discriminate..|].
    assert (flushed = true) as Hflushed by (apply Hiff; reflexivity).
    destruct (Hcommit Hflushed) as (-> & -> & _). subst flushed.
    eexists. split; [exact Hcall|]. split; reflexivity.
  - destruct (tie_break_law 26676666 10000 period90Hz transitioning eq_refl eq_refl)
      as (more & flushed & s' & Hcall & Hiff & _ & Hpending);
      [vm_compute; split; discriminate..|].
    assert (flushed = false) as Hflushed.
    { destruct flushed; [|reflexivity].
      destruct Hiff as [Hlt _]. specialize (Hlt eq_refl). vm_compute in Hlt.
      discriminate Hlt. }
    destruct (Hpending Hflushed) as (-> & ->). subst flushed.
    eexists. split; [exact Hcall|]. split; reflexivity.
Defined.

Lemma backlog_never_exceeds_limit_witness :
  (∃ s', addPresentFences
           [(Some F1, allPending); (Some F2, allPending); (Some F3, allPending)] (fresh 2)
         = Returns s'
         ∧ mUnfiredFences s' = [F2; F3]
         ∧ (length (mUnfiredFences s') ≤ mPendingLimit s')%nat)
  ∧ (∃ s', addPresentFence (Some F3) allPending backlogFull = Returns (false, s')
           ∧ mUnfiredFences s' = [F2; F3]).
Proof.
  split.
  - destruct (backlog_never_exceeds_limit
                [(Some F1, allPending); (Some F2, allPending); (Some F3, allPending)]
                (fresh 2)) as (Hbound & _ & _ & Hscenario); [cbn; lia|].
    destruct (Hscenario F1 F2 F3 allPending eq_refl eq_refl eq_refl eq_refl eq_refl eq_refl)
      as (s' & Hrun & Hbacklog).
    exists s'. split; [exact Hrun|]. split; [exact Hbacklog|].
    exact (proj1 (Hbound s' Hrun)).
  - destruct (backlog_never_exceeds_limit [] backlogFull) as (_ & _ & Hevict & _);
      [cbn; lia|].
    exact (Hevict F3 allPending F1 [F2] eq_refl eq_refl eq_refl eq_refl).
Defined.

Lemma addResyncSample_forwards_once_witness :
  (∃ s', addResyncSample 5000 (fresh 2) = Returns ((false, false), s')
         ∧ Tracker.calls (mTracker s') = [Tracker.AddVsyncTimestamp 5000])
  ∧ (∃ more flushed s',
       addResyncSample 11121111 transitioning = Returns ((more, flushed), s')
       ∧ Tracker.vsyncSamples (Tracker.calls (mTracker s')) = [11121111]).
Proof.
  split.
  - destruct (addResyncSample_forwards_once 5000 (fresh 2))
      as (more & flushed & s' & Hcall & _ & _ & Hidle).
    destruct (Hidle eq_refl) as (-> & -> & Hcalls).
    exists s'. split; [exact Hcall|exact Hcalls].
  - destruct (addResyncSample_forwards_once 11121111 transitioning)
      as (more & flushed & s' & Hcall & Hsamples & _).
    exists more, flushed, s'. split; [exact Hcall|exact Hsamples].
Defined.

Lemma addEventListener_fourth_rejected_witness :
  size (mCallbacks threeListeners) = 3%nat
  ∧ addEventListener "d" 3000 40%N threeListeners = Returns (NO_MEMORY, threeListeners).
Proof.
  split; [reflexivity|].
  apply (addEventListener_fourth_rejected 10%N 20%N 30%N);
    try discriminate; try (eexists; reflexivity); reflexivity.
Defined.

Lemma setPeriod_same_period_witness :
  mPeriodTransitioningTo transitioning = Some period90Hz
  ∧ mPeriodTransitioningTo (setPeriod period60Hz transitioning) = None
  ∧ mLastHwVsync (setPeriod period60Hz transitioning) = None
  ∧ mMoreSamplesNeeded (setPeriod period60Hz transitioning) = false.
Proof.
  destruct (setPeriod_same_period period60Hz transitioning) as [Hanchor Hsame].
  destruct (Hsame eq_refl) as (_ & Hto & Hmore & _).
  split; [reflexivity|]. split; [exact Hto|]. split; [exact Hanchor|exact Hmore].
Defined.

Lemma removeEventListener_twice_fatal_witness :
  (∃ s', removeEventListener 10%N threeListeners = Returns (NO_ERROR, s')
         ∧ removeEventListener 10%N s'
           = Fatal "DispSyncInterface misuse: callback already stopped")
  ∧ removeEventListener 40%N threeListeners = Fatal "callback %p not registered".
Proof.
  split.
  - destruct (removeEventListener_twice_fatal 10%N threeListeners)
      as (Htwice & _ & Hfirst).
    edestruct Hfirst as [s' Hcall]; [reflexivity|reflexivity|].
    exists s'. split; [exact Hcall|]. exact (Htwice _ _ Hcall).
  - destruct (removeEventListener_twice_fatal 40%N threeListeners)
      as (_ & Hunseen & _).
    apply Hunseen. reflexivity.
Defined.

Lemma removeEventListener_keeps_entry_witness :
  size (mCallbacks oneRemoved) = 3%nat
  ∧ addEventListener "d" 3000 40%N oneRemoved = Returns (NO_MEMORY, oneRemoved)
  ∧ ∃ r, mCallbacks oneRemoved !! 10%N = Some r ∧ CallbackRepeater.mStopped r = true.
Proof.
  destruct (removeEventListener_keeps_entry 10%N threeListeners NO_ERROR oneRemoved)
    as (r & Hr & Hstopped & _ & Hsize & _ & Hfull & _); [reflexivity|].
  split; [exact Hsize|].
  split; [apply Hfull; reflexivity|].
  eexists. split; [exact Hstopped|reflexivity].
Defined.

Lemma eviction_finds_oldest_witness :
  addPresentFence (Some F3) allPending backlogFull ≠ Undefined
  ∧ addPresentFence (Some F1) allPending (fresh 0) = Undefined.
Proof.
  destruct (eviction_finds_oldest (Some F3) allPending backlogFull [])
    as (_ & Hdefined & _ & _ & Hzero); [cbn; lia|].
  split; [exact Hdefined|].
  apply Hzero; reflexivity.
Defined.

End OnScenarios.

(** * Further properties *)

(** ** What the tracker receives from present fences *)

Section FenceForwarding.
Context {T D C : Type}.
Context `{Tracker.VSyncTracker T} `{Dispatch.VSyncDispatch D} `{Clock.Clock C}.
Import VSyncReactor.

Implicit Types (s : VSyncReactor.t (Tracker.Logged T) D C) (f : FenceTime)
  (signals : FenceSignals).

(** The drain hands the tracker the settled times of the backlog, in
    backlog order, and nothing else. *)
Lemma drainUnfiredFences_calls signals (fences : list FenceTime)
    (tracker : Tracker.Logged T) :
  Tracker.calls (drainUnfiredFences signals fences tracker).2
  = Tracker.calls tracker ++ (Tracker.AddVsyncTimestamp <$> settledTimes signals fences).
Proof.
  revert tracker. unfold settledTimes.
  induction fences as [|it rest IH]; intros tracker; [by rewrite app_nil_r|].
  cbn [drainUnfiredFences]. rewrite fmap_cons.
  destruct (Z.eqb_spec (signals it) Fence.SIGNAL_TIME_PENDING) as [Hp|Hp].
  - specialize (IH tracker).
    destruct (drainUnfiredFences signals rest tracker) as [kept tracker'].
    rewrite filter_cons_False by (intros [? _]; done). done.
  - destruct (Z.eqb_spec (signals it) Fence.SIGNAL_TIME_INVALID) as [Hi|Hi].
    + rewrite filter_cons_False by (intros [_ ?]; done). apply IH.
    + rewrite filter_cons_True by done. rewrite IH. cbn.
      by rewrite <- app_assoc.
Qed.

Lemma settledTimes_app signals (l1 l2 : list FenceTime) :
  settledTimes signals (l1 ++ l2) = settledTimes signals l1 ++ settledTimes signals l2.
Proof. unfold settledTimes. by rewrite fmap_app, filter_app. Qed.

Lemma settledTimes_settled signals (fences : list FenceTime) :
  Forall (λ time, time ≠ Fence.SIGNAL_TIME_PENDING ∧ time ≠ Fence.SIGNAL_TIME_INVALID)
         (settledTimes signals fences).
Proof.
  unfold settledTimes. apply Forall_forall. intros time Hin.
  by apply list_elem_of_filter in Hin as [? _].
Qed.

(** What a call that drains does to the tracker and to the backlog. *)
Lemma addPresentFence_drains f signals s (b : bool) s' :
  mIgnorePresentFences s = false →
  signals f ≠ Fence.SIGNAL_TIME_INVALID →
  addPresentFence (Some f) signals s = Returns (b, s') →
  b = mMoreSamplesNeeded s
  ∧ Tracker.calls (mTracker s')
    = Tracker.calls (mTracker s)
      ++ (Tracker.AddVsyncTimestamp <$> settledTimes signals (mUnfiredFences s ++ [f]))
  ∧ ∃ kept, mUnfiredFences s' = kept
      ∧ (kept = filter (λ it, signals it = Fence.SIGNAL_TIME_PENDING)
                  (mUnfiredFences s ++ [f])
         ∨ kept = tail (filter (λ it, signals it = Fence.SIGNAL_TIME_PENDING)
                          (mUnfiredFences s)) ++ [f]
           ∧ signals f = Fence.SIGNAL_TIME_PENDING).
Proof.
  intros Hign Hvalid. unfold addPresentFence. rewrite Hign.
  destruct (Z.eqb_spec (signals f) Fence.SIGNAL_TIME_INVALID) as [|_]; [done|].
  pose proof (drainUnfiredFences_calls signals (mUnfiredFences s) (mTracker s)) as Hcalls.
  pose proof (drainUnfiredFences_kept signals (mUnfiredFences s) (mTracker s)) as Hkept.
  destruct (drainUnfiredFences signals (mUnfiredFences s) (mTracker s))
    as [kept tracker]. cbn [fst snd] in Hcalls, Hkept.
  rewrite settledTimes_app, filter_app, fmap_app.
  destruct (Z.eqb_spec (signals f) Fence.SIGNAL_TIME_PENDING) as [Hp|Hp].
  - assert (settledTimes signals [f] = []) as ->.
    { unfold settledTimes. change (signals <$> [f]) with [signals f].
      rewrite filter_cons_False by (intros [? _]; done). done. }
    rewrite (filter_cons_True _ f) by done. rewrite filter_nil.
    cbn [mPendingLimit mUnfiredFences with_mTracker with_mUnfiredFences].
    destruct (Nat.eqb (mPendingLimit s) (length kept)).
    + destruct kept as [|oldest rest]; [done|]. cbn. intros [= <- <-]. cbn.
      rewrite app_nil_r. split; [done|]. split; [done|].
      eexists. split; [done|]. right. by rewrite <- Hkept.
    + cbn. intros [= <- <-]. cbn. rewrite app_nil_r. split; [done|]. split; [done|].
      eexists. split; [done|]. left. by rewrite <- Hkept.
  - assert (settledTimes signals [f] = [signals f]) as ->.
    { unfold settledTimes. change (signals <$> [f]) with [signals f].
      by rewrite filter_cons_True. }
    rewrite (filter_cons_False _ f) by done. rewrite filter_nil, app_nil_r.
    intros [= <- <-]. cbn. split; [done|]. split.
    + by rewrite Hcalls, <- app_assoc.
    + eexists. split; [done|]. by left.
Qed.

(** X1: a call that drains (fence not null, not INVALID, fences not
    ignored) hands the tracker exactly the settled signal times of the
    backlog, oldest first, followed by the new fence's own time when that
    has settled -- and makes no other call on the tracker. *)
Theorem addPresentFence_forwards_settled_in_order f signals s (b : bool) s' :
  mIgnorePresentFences s = false →
  signals f ≠ Fence.SIGNAL_TIME_INVALID →
  addPresentFence (Some f) signals s = Returns (b, s') →
  Tracker.calls (mTracker s')
  = Tracker.calls (mTracker s)
    ++ (Tracker.AddVsyncTimestamp <$> settledTimes signals (mUnfiredFences s ++ [f]))
  ∧ Tracker.vsyncSamples (Tracker.calls (mTracker s'))
    = Tracker.vsyncSamples (Tracker.calls (mTracker s))
      ++ settledTimes signals (mUnfiredFences s ++ [f]).
Proof.
  intros Hign Hvalid Hcall.
  destruct (addPresentFence_drains _ _ _ _ _ Hign Hvalid Hcall) as (_ & Hcalls & _).
  split; [done|]. rewrite Hcalls, vsyncSamples_app. f_equal.
  generalize (settledTimes signals (mUnfiredFences s ++ [f])).
  induction l as [|time l IH]; [done|]. cbn. by f_equal.
Qed.

(** X2: whatever the fence and the state, a call of [addPresentFence] that
    returns has only added vsync timestamps to the tracker, and none of them
    is the PENDING or the INVALID signal time. *)
Theorem addPresentFence_never_forwards_unsettled (fence : option FenceTime) signals s
    (b : bool) s' :
  addPresentFence fence signals s = Returns (b, s') →
  ∃ times,
    Tracker.calls (mTracker s')
    = Tracker.calls (mTracker s) ++ (Tracker.AddVsyncTimestamp <$> times)
    ∧ Forall (λ time, time ≠ Fence.SIGNAL_TIME_PENDING ∧ time ≠ Fence.SIGNAL_TIME_INVALID)
             times.
Proof.
  intros Hcall.
  assert (s' = s ∨ mIgnorePresentFences s = false
                   ∧ ∃ f, fence = Some f ∧ signals f ≠ Fence.SIGNAL_TIME_INVALID)
    as [->|(Hign & f & -> & Hvalid)].
  { revert Hcall. unfold addPresentFence.
    destruct fence as [f|]; [|intros [= _ <-]; by left].
    destruct (Z.eqb_spec (signals f) Fence.SIGNAL_TIME_INVALID);
      [intros [= _ <-]; by left|].
    destruct (mIgnorePresentFences s); [intros [= _ <-]; by left|].
    intros _. right. by eauto. }
  - exists []. by rewrite app_nil_r.
  - destruct (addPresentFence_drains _ _ _ _ _ Hign Hvalid Hcall) as (_ & Hcalls & _).
    eexists. split; [exact Hcalls|]. apply settledTimes_settled.
Qed.

(** X3: after a call that drains, every fence in the backlog is pending at
    that call's signal times, and the backlog is the old backlog followed by
    the new fence with some entries taken out: nothing else gets in and the
    order of arrival is kept. *)
Theorem addPresentFence_backlog_pending_in_order f signals s (b : bool) s' :
  mIgnorePresentFences s = false →
  signals f ≠ Fence.SIGNAL_TIME_INVALID →
  addPresentFence (Some f) signals s = Returns (b, s') →
  Forall (λ it, signals it = Fence.SIGNAL_TIME_PENDING) (mUnfiredFences s')
  ∧ mUnfiredFences s' `sublist_of` mUnfiredFences s ++ [f].
Proof.
  intros Hign Hvalid Hcall.
  destruct (addPresentFence_drains _ _ _ _ _ Hign Hvalid Hcall)
    as (_ & _ & kept & -> & [->|[-> Hp]]).
  - split; [|apply sublist_filter].
    apply Forall_forall. intros it Hin. by apply list_elem_of_filter in Hin as [? _].
  - split.
    + apply Forall_app. split; [|by repeat constructor].
      apply Forall_forall. intros it Hin.
      assert (it ∈ filter (λ it, signals it = Fence.SIGNAL_TIME_PENDING) (mUnfiredFences s))
        as Hfilter.
      { destruct (filter _ (mUnfiredFences s)); [done|]. by apply list_elem_of_further. }
      by apply list_elem_of_filter in Hfilter as [? _].
    + apply sublist_app; [|done].
      transitivity (filter (λ it, signals it = Fence.SIGNAL_TIME_PENDING) (mUnfiredFences s));
        [|apply sublist_filter].
      destruct (filter _ (mUnfiredFences s)); [done|]. by apply sublist_cons.
Qed.

(** X5: a fence handed in while pending and found settled at a later call
    reaches the tracker then, once, ahead of the later call's own fence, and
    leaves the backlog. *)
Theorem pending_fence_forwarded_when_settled f g (signals1 signals2 : FenceSignals) s :
  mIgnorePresentFences s = false →
  mUnfiredFences s = [] →
  (1 ≤ mPendingLimit s)%nat →
  signals1 f = Fence.SIGNAL_TIME_PENDING →
  signals2 f ≠ Fence.SIGNAL_TIME_PENDING → signals2 f ≠ Fence.SIGNAL_TIME_INVALID →
  signals2 g ≠ Fence.SIGNAL_TIME_PENDING → signals2 g ≠ Fence.SIGNAL_TIME_INVALID →
  ∃ s1 s2,
    addPresentFence (Some f) signals1 s = Returns (mMoreSamplesNeeded s, s1)
    ∧ mUnfiredFences s1 = [f]
    ∧ Tracker.calls (mTracker s1) = Tracker.calls (mTracker s)
    ∧ addPresentFence (Some g) signals2 s1 = Returns (mMoreSamplesNeeded s, s2)
    ∧ mUnfiredFences s2 = []
    ∧ Tracker.calls (mTracker s2)
      = Tracker.calls (mTracker s)
        ++ [Tracker.AddVsyncTimestamp (signals2 f); Tracker.AddVsyncTimestamp (signals2 g)].
Proof.
  intros Hign Hempty Hlim Hp Hf1 Hf2 Hg1 Hg2.
  rewrite addPresentFence_none_settled by (done || by rewrite Hempty).
  rewrite Hempty. cbn [length tail app].
  assert (Nat.eqb (mPendingLimit s) 0 = false) as -> by (apply Nat.eqb_neq; lia).
  eexists _, _. split; [done|]. split; [done|]. split; [done|].
  apply Z.eqb_neq in Hf1, Hf2, Hg1, Hg2.
  unfold addPresentFence.
  cbn [mIgnorePresentFences mUnfiredFences mTracker with_mUnfiredFences app
       drainUnfiredFences].
  rewrite Hign, Hf1, Hf2, Hg1, Hg2.
  split; [done|]. split; [done|]. cbn. by rewrite <- app_assoc.
Qed.

(** X6: on a reactor with an empty backlog that does not ignore fences,
    a sequence of fences that have all settled reaches the tracker in the
    order of the calls, one timestamp a call, and the backlog stays
    empty. *)
Theorem settled_fences_forwarded_in_call_order (calls : list (FenceTime * FenceSignals)) s :
  mIgnorePresentFences s = false →
  mUnfiredFences s = [] →
  Forall (λ call, call.2 call.1 ≠ Fence.SIGNAL_TIME_PENDING
                  ∧ call.2 call.1 ≠ Fence.SIGNAL_TIME_INVALID) calls →
  ∃ s', addPresentFences ((λ call, (Some call.1, call.2)) <$> calls) s = Returns s'
        ∧ Tracker.calls (mTracker s')
          = Tracker.calls (mTracker s)
            ++ ((λ call, Tracker.AddVsyncTimestamp (call.2 call.1)) <$> calls)
        ∧ mUnfiredFences s' = []
        ∧ mIgnorePresentFences s' = false.
Proof.
  intros Hign Hempty Hall. revert s Hign Hempty.
  induction Hall as [|[f signals] rest [Hp Hi] _ IH]; intros s Hign Hempty.
  - exists s. by rewrite app_nil_r.
  - cbn [fst snd] in Hp, Hi. rewrite !fmap_cons. cbn [addPresentFences fst snd].
    unfold addPresentFence. rewrite Hign, Hempty. cbn [drainUnfiredFences].
    destruct (Z.eqb_spec (signals f) Fence.SIGNAL_TIME_INVALID); [done|].
    destruct (Z.eqb_spec (signals f) Fence.SIGNAL_TIME_PENDING); [done|].
    cbn [mbind Outcome_bind].
    edestruct IH as (s' & -> & Hcalls & Hback & Hign'); [..|exists s'].
    + done.
    + done.
    + split; [done|]. split; [|done]. rewrite Hcalls. cbn. by rewrite <- app_assoc.
Qed.

End FenceForwarding.

Section IgnoredFences.
Context {T D C : Type}.
Context `{Tracker.VSyncTracker T} `{Dispatch.VSyncDispatch D} `{Clock.Clock C}.
Import VSyncReactor.

(** X4: once [setIgnorePresentFences(true)] has run, the backlog is empty
    and no sequence of [addPresentFence] calls, whatever the fences, changes
    anything: the backlog stays empty and tracker, dispatcher and listeners
    are those left by [setIgnorePresentFences].  Turning the flag off, by
    contrast, leaves the backlog as it is. *)
Theorem ignored_fences_change_nothing (calls : list (option FenceTime * FenceSignals))
    (s : VSyncReactor.t T D C) :
  mUnfiredFences (setIgnorePresentFences true s) = []
  ∧ addPresentFences calls (setIgnorePresentFences true s)
    = Returns (setIgnorePresentFences true s)
  ∧ mUnfiredFences (setIgnorePresentFences false s) = mUnfiredFences s.
Proof.
  split; [done|]. split; [|done].
  generalize (setIgnorePresentFences true s) (eq_refl : mIgnorePresentFences
    (setIgnorePresentFences true s) = true).
  intros s1 Hign. induction calls as [|[[f|] signals] rest IH]; [done|..].
  - cbn [addPresentFences]. unfold addPresentFence. rewrite Hign.
    by destruct (signals f =? Fence.SIGNAL_TIME_INVALID).
  - done.
Qed.

End IgnoredFences.

(** ** Period transitions *)

Section Transitions.
Context {T D C : Type}.
Context `{Tracker.VSyncTracker T} `{Dispatch.VSyncDispatch D} `{Clock.Clock C}.
Import VSyncReactor.

Implicit Types (s : VSyncReactor.t T D C).

(** The two states [setPeriod] can leave. *)
Lemma setPeriod_cases (period : nsecs_t) s :
  setPeriod period s
  = if period =? Tracker.currentPeriod (mTracker s)
    then mk (mClock s) (mTracker s) (mDispatch s) (mPendingLimit s)
            (mIgnorePresentFences s) (mUnfiredFences s) false None None (mCallbacks s)
    else mk (mClock s) (mTracker s) (mDispatch s) (mPendingLimit s)
            (mIgnorePresentFences s) (mUnfiredFences s) true (Some period) None
            (mCallbacks s).
Proof.
  unfold setPeriod, getPeriod. cbn [mTracker with_mLastHwVsync].
  by destruct (period =? Tracker.currentPeriod (mTracker s)).
Qed.

(** X7: the first resync sample after a [setPeriod] never flushes the
    period, whatever the timestamp: [setPeriod] has dropped the anchor, so
    there is no interval to judge.  When the period asked for differs from
    the tracker's, the sample becomes the anchor and more samples are
    wanted; when it is the same, none are. *)
Theorem first_sample_after_setPeriod_never_flushes (period timestamp : nsecs_t) s :
  ∃ s', addResyncSample timestamp (setPeriod period s)
        = Returns ((negb (period =? getPeriod s), false), s')
        ∧ mTracker s' = Tracker.addVsyncTimestamp timestamp (mTracker s)
        ∧ mCallbacks s' = mCallbacks s
        ∧ mLastHwVsync s' = (if period =? getPeriod s then None else Some timestamp)
        ∧ mPeriodTransitioningTo s' = (if period =? getPeriod s then None else Some period).
Proof.
  rewrite setPeriod_cases. unfold getPeriod.
  destruct (period =? Tracker.currentPeriod (mTracker s)); by eexists.
Qed.

(** The state the first sample leaves when a transition was started. *)
Lemma first_sample_state (period t0 : nsecs_t) s :
  period ≠ Tracker.currentPeriod (mTracker s) →
  ∃ s1, addResyncSample t0 (setPeriod period s) = Returns ((true, false), s1)
        ∧ s1 = mk (mClock s) (Tracker.addVsyncTimestamp t0 (mTracker s)) (mDispatch s)
                  (mPendingLimit s) (mIgnorePresentFences s) (mUnfiredFences s)
                  true (Some period) (Some t0) (mCallbacks s).
Proof.
  intros Hnew. apply Z.eqb_neq in Hnew.
  rewrite setPeriod_cases, Hnew. by eexists.
Qed.

(** Detection at an interval [d] after the anchor. *)
Lemma periodChangeDetected_interval (d A Pnew : nsecs_t) s :
  mPeriodTransitioningTo s = Some Pnew →
  mLastHwVsync s = Some A →
  Nsecs.representable d →
  Nsecs.representable (Z.abs (d - Pnew)) →
  Nsecs.representable (Z.abs (d - getPeriod s)) →
  periodChangeDetected (A + d) s
  = bool_decide (Z.abs (d - Pnew) < Z.abs (d - getPeriod s)).
Proof.
  intros Hto Hlast Hd Hnew Hold.
  rewrite (periodChangeDetected_no_overflow (A + d) A Pnew);
    replace (A + d - A) with d by lia; done.
Qed.

(** X8: after [setPeriod] to a period other than the tracker's and a first
    sample at [t0], a second sample exactly one new period later commits the
    transition: the tracker is given the new period, every repeater holds
    it, and the transition state is cleared.  A second sample exactly one
    old period later does not: the transition stays pending with that
    sample as the new anchor.  (The old period is the one the tracker
    reports after the first sample; the arithmetic is assumed not to
    overflow.) *)
Theorem second_sample_decides_transition (period t0 : nsecs_t) s :
  let tracker1 := Tracker.addVsyncTimestamp t0 (mTracker s) in
  let old := Tracker.currentPeriod tracker1 in
  period ≠ Tracker.currentPeriod (mTracker s) →
  period ≠ old →
  Nsecs.representable period →
  Nsecs.representable old →
  Nsecs.representable (Z.abs (period - old)) →
  ∃ s1,
    addResyncSample t0 (setPeriod period s) = Returns ((true, false), s1)
    ∧ (∃ s2, addResyncSample (t0 + period) s1 = Returns ((false, true), s2)
             ∧ mTracker s2
               = Tracker.addVsyncTimestamp (t0 + period) (Tracker.setPeriod period tracker1)
             ∧ mPeriodTransitioningTo s2 = None
             ∧ mLastHwVsync s2 = None
             ∧ (∀ cb r, mCallbacks s2 !! cb = Some r → CallbackRepeater.mPeriod r = period))
    ∧ (∃ s2, addResyncSample (t0 + old) s1 = Returns ((true, false), s2)
             ∧ mTracker s2 = Tracker.addVsyncTimestamp (t0 + old) tracker1
             ∧ mPeriodTransitioningTo s2 = Some period
             ∧ mLastHwVsync s2 = Some (t0 + old)
             ∧ mCallbacks s2 = mCallbacks s).
Proof.
  intros tracker1 old Hnew Hold Hrp Hro Hrabs. subst old tracker1.
  destruct (first_sample_state period t0 s Hnew) as (s1 & Hfirst & Hs1).
  exists s1. split; [exact Hfirst|]. subst s1. split.
  - unfold addResyncSample.
    rewrite (periodChangeDetected_interval period t0 period) by
      (done || by rewrite Z.sub_diag).
    unfold getPeriod. cbn [mTracker].
    rewrite Z.sub_diag, bool_decide_eq_true_2 by lia.
    cbn. eexists. split; [done|]. cbn. split; [done|]. split; [done|]. split; [done|].
    intros cb r. rewrite lookup_fmap. destruct (mCallbacks s !! cb) as [r0|]; [|done].
    cbn. intros [= <-]. by rewrite setPeriod_mPeriod.
  - unfold addResyncSample.
    rewrite (periodChangeDetected_interval _ t0 period);
      [|done|done|done
       |by replace (Z.abs (Tracker.currentPeriod
                            (Tracker.addVsyncTimestamp t0 (mTracker s)) - period))
             with (Z.abs (period - Tracker.currentPeriod
                            (Tracker.addVsyncTimestamp t0 (mTracker s)))) by lia
       |unfold getPeriod; cbn [mTracker]; by rewrite Z.sub_diag].
    unfold getPeriod. cbn [mTracker].
    rewrite Z.sub_diag, bool_decide_eq_false_2 by lia.
    cbn. eexists. split; [done|]. by cbn.
Qed.

End Transitions.

(** ** Invariants over the public methods *)

Section MethodInvariants.
Context {T D C : Type}.
Context `{Tracker.VSyncTracker T} `{Dispatch.VSyncDispatch D} `{Clock.Clock C}.
Import VSyncReactor.

Implicit Types (s : VSyncReactor.t T D C) (callback : Callback).

(** What [addPresentFence] leaves alone. *)
Lemma addPresentFence_frame (fence : option FenceTime) (signals : FenceSignals) s
    (b : bool) s' :
  addPresentFence fence signals s = Returns (b, s') →
  mCallbacks s' = mCallbacks s ∧ mDispatch s' = mDispatch s
  ∧ mPeriodTransitioningTo s' = mPeriodTransitioningTo s
  ∧ mLastHwVsync s' = mLastHwVsync s
  ∧ mMoreSamplesNeeded s' = mMoreSamplesNeeded s.
Proof.
  unfold addPresentFence.
  destruct fence as [f|]; [|by intros [= <- <-]].
  destruct (signals f =? Fence.SIGNAL_TIME_INVALID); [by intros [= <- <-]|].
  destruct (mIgnorePresentFences s); [by intros [= <- <-]|].
  destruct (drainUnfiredFences signals (mUnfiredFences s) (mTracker s))
    as [kept tracker].
  destruct (signals f =? Fence.SIGNAL_TIME_PENDING); cbn; [|by intros [= <- <-]].
  destruct (Nat.eqb (mPendingLimit s) (length kept)); [|by intros [= <- <-]].
  destruct kept; [done|]. by intros [= <- <-].
Qed.

(** What [addResyncSample] leaves alone, and what it does to the
    repeaters. *)
Lemma addResyncSample_frame (timestamp : nsecs_t) s (r : bool * bool) s' :
  addResyncSample timestamp s = Returns (r, s') →
  mUnfiredFences s' = mUnfiredFences s ∧ mPendingLimit s' = mPendingLimit s
  ∧ mDispatch s' = mDispatch s
  ∧ (mCallbacks s' = mCallbacks s
     ∨ ∃ period, mCallbacks s' = CallbackRepeater.setPeriod period <$> mCallbacks s).
Proof.
  unfold addResyncSample.
  destruct (periodChangeDetected timestamp s).
  - destruct (mPeriodTransitioningTo s) as [period|]; [|done].
    cbn. intros [= <- <-]. cbn. by eauto 10.
  - destruct (mPeriodTransitioningTo s); cbn; intros [= <- <-]; cbn; by eauto 10.
Qed.

(** The state a successful [startEntry] leaves. *)
Lemma startEntry_returns callback (phase : nsecs_t) (r : CallbackRepeater.t) s
    (st : status_t) s' :
  startEntry callback phase r s = Returns (st, s') →
  st = NO_ERROR
  ∧ s' = with_mDispatch (mDispatch s')
           (with_mCallbacks
              (<[callback := CallbackRepeater.mk (CallbackRepeater.mCallback r)
                               (CallbackRepeater.mRegistration r) false
                               (CallbackRepeater.mPeriod r) phase
                               (CallbackRepeater.mLastCallTime r)]> (mCallbacks s)) s).
Proof.
  unfold startEntry, CallbackRepeater.start.
  destruct (Dispatch.schedule _ _ _ _) as [[| |] d']; [|done..].
  cbn. by intros [= <- <-].
Qed.

(** What the three listener methods leave alone, and what they do to the
    map. *)
Lemma listener_method_frame (m : Method) s s' :
  match m with
  | AddEventListener _ _ _ | RemoveEventListener _ | ChangePhaseOffset _ _ => True
  | _ => False
  end →
  invoke m s = Returns s' →
  mTracker s' = mTracker s ∧ mUnfiredFences s' = mUnfiredFences s
  ∧ mPendingLimit s' = mPendingLimit s
  ∧ mIgnorePresentFences s' = mIgnorePresentFences s
  ∧ mPeriodTransitioningTo s' = mPeriodTransitioningTo s
  ∧ mLastHwVsync s' = mLastHwVsync s
  ∧ mMoreSamplesNeeded s' = mMoreSamplesNeeded s
  ∧ sameOrOneEntry (mCallbacks s) (mCallbacks s').
Proof.
  destruct m as [| | | | | |name phase callback|callback|callback phase|]; try done;
    intros _; cbn [invoke].
  - (* addEventListener *)
    destruct (addEventListener name phase callback s) as [[st s1]| |] eqn:Hcall;
      [|done..].
    cbn. intros [= <-]. revert Hcall. unfold addEventListener.
    destruct (mCallbacks s !! callback) as [r0|] eqn:Hlookup.
    + intros Hstart. apply startEntry_returns in Hstart as [_ ->]. cbn.
      repeat split. right. eexists _, _. split; [done|]. left. by eexists.
    + unfold maxListeners.
      destruct (Nat.leb_spec 3 (size (mCallbacks s))) as [|Hroom].
      { intros [= _ <-]. repeat split. by left. }
      unfold CallbackRepeater.new.
      destruct (Dispatch.registerCallback name (mDispatch s)) as [token d1].
      intros Hstart. apply startEntry_returns in Hstart as [_ ->]. cbn.
      repeat split. right. eexists _, _. rewrite insert_insert_eq.
      split; [done|]. right. done.
  - (* removeEventListener *)
    destruct (removeEventListener callback s) as [[st s1]| |] eqn:Hcall; [|done..].
    cbn. intros [= <-].
    destruct (removeEventListener_returns _ _ _ _ Hcall) as (r & Hr & _ & _ & ->).
    cbn. repeat split. right. eexists _, _. split; [done|]. left. by eexists.
  - (* changePhaseOffset *)
    destruct (changePhaseOffset callback phase s) as [[st s1]| |] eqn:Hcall; [|done..].
    cbn. intros [= <-]. revert Hcall. unfold changePhaseOffset.
    destruct (mCallbacks s !! callback) as [r0|] eqn:Hlookup; [|done].
    intros Hstart. apply startEntry_returns in Hstart as [_ ->]. cbn.
    repeat split. right. eexists _, _. split; [done|]. left. by eexists.
Qed.

(** X9: over any sequence of public method calls that runs through, the
    listener map never holds more than three entries, and every entry's
    repeater is the one for the identity it is filed under.  The same holds
    of the constructed reactor, whose map is empty. *)
Theorem listener_map_within_cap (ms : list Method) s s' :
  (size (mCallbacks s) ≤ 3)%nat →
  (∀ cb r, mCallbacks s !! cb = Some r → CallbackRepeater.mCallback r = cb) →
  invokeAll ms s = Returns s' →
  (size (mCallbacks s') ≤ 3)%nat
  ∧ (∀ cb r, mCallbacks s' !! cb = Some r → CallbackRepeater.mCallback r = cb).
Proof.
  revert s. induction ms as [|m rest IH]; intros s Hsize Hkeyed; [by intros [= <-]|].
  cbn [invokeAll]. destruct (invoke m s) as [s1| |] eqn:Hstep; [|done..].
  cbn. apply IH; clear IH.
  - (* the size *)
    destruct m; cbn [invoke] in Hstep.
    + destruct (addPresentFence fence signals s) as [[b s2]| |] eqn:Hcall; [|done..].
      injection Hstep as <-. by destruct (addPresentFence_frame _ _ _ _ _ Hcall) as [-> _].
    + injection Hstep as <-. unfold setIgnorePresentFences. by destruct ignoration.
    + injection Hstep as <-. rewrite setPeriod_cases.
      by destruct (period =? Tracker.currentPeriod (mTracker s)).
    + by injection Hstep as <-.
    + by injection Hstep as <-.
    + destruct (addResyncSample timestamp s) as [[r s2]| |] eqn:Hcall; [|done..].
      injection Hstep as <-.
      destruct (addResyncSample_frame _ _ _ _ Hcall) as (_ & _ & _ & [->|[p ->]]);
        [done|by rewrite map_size_fmap].
    + destruct (listener_method_frame (AddEventListener name phase callback) _ _ I Hstep)
        as (_ & _ & _ & _ & _ & _ & _ & [->|(cb & r & -> & [(r0 & Hr0 & _)|(Hnone & Hroom & _)])]);
        [done|by rewrite map_size_insert_Some|rewrite map_size_insert_None by done; lia].
    + destruct (listener_method_frame (RemoveEventListener callback) _ _ I Hstep)
        as (_ & _ & _ & _ & _ & _ & _ & [->|(cb & r & -> & [(r0 & Hr0 & _)|(Hnone & Hroom & _)])]);
        [done|by rewrite map_size_insert_Some|rewrite map_size_insert_None by done; lia].
    + destruct (listener_method_frame (ChangePhaseOffset callback phase) _ _ I Hstep)
        as (_ & _ & _ & _ & _ & _ & _ & [->|(cb & r & -> & [(r0 & Hr0 & _)|(Hnone & Hroom & _)])]);
        [done|by rewrite map_size_insert_Some|rewrite map_size_insert_None by done; lia].
    + by injection Hstep as <-.
  - (* the identities *)
    assert (∀ m0 m1 : gmap Callback CallbackRepeater.t,
              (∀ cb r, m0 !! cb = Some r → CallbackRepeater.mCallback r = cb) →
              sameOrOneEntry m0 m1 →
              ∀ cb r, m1 !! cb = Some r → CallbackRepeater.mCallback r = cb) as Hone.
    { intros m0 m1 Hk [->|(cb0 & r1 & -> & Hcase)] cb r; [by apply Hk|].
      destruct (decide (cb0 = cb)) as [->|Hne].
      - rewrite lookup_insert_eq. intros [= <-].
        destruct Hcase as [(r0 & Hr0 & ->)|(_ & _ & ->)]; [by apply Hk|done].
      - rewrite lookup_insert_ne by done. by apply Hk. }
    destruct m; cbn [invoke] in Hstep.
    + destruct (addPresentFence fence signals s) as [[b s2]| |] eqn:Hcall; [|done..].
      injection Hstep as <-. by destruct (addPresentFence_frame _ _ _ _ _ Hcall) as [-> _].
    + injection Hstep as <-. unfold setIgnorePresentFences. by destruct ignoration.
    + injection Hstep as <-. rewrite setPeriod_cases.
      by destruct (period =? Tracker.currentPeriod (mTracker s)).
    + by injection Hstep as <-.
    + by injection Hstep as <-.
    + destruct (addResyncSample timestamp s) as [[r s2]| |] eqn:Hcall; [|done..].
      injection Hstep as <-.
      destruct (addResyncSample_frame _ _ _ _ Hcall) as (_ & _ & _ & [->|[p ->]]);
        [done|].
      intros cb r1. rewrite lookup_fmap.
      destruct (mCallbacks s !! cb) as [r0|] eqn:Hr0; [|done].
      cbn. intros [= <-]. rewrite setPeriod_mPeriod. cbn. by apply Hkeyed.
    + apply (Hone (mCallbacks s)); [done|].
      by destruct (listener_method_frame (AddEventListener name phase callback) _ _ I Hstep) as (_ & _ & _ & _ & _ & _ & _ & ?).
    + apply (Hone (mCallbacks s)); [done|].
      by destruct (listener_method_frame (RemoveEventListener callback) _ _ I Hstep) as (_ & _ & _ & _ & _ & _ & _ & ?).
    + apply (Hone (mCallbacks s)); [done|].
      by destruct (listener_method_frame (ChangePhaseOffset callback phase) _ _ I Hstep) as (_ & _ & _ & _ & _ & _ & _ & ?).
    + by injection Hstep as <-.
Qed.

(** X10: over any sequence of public method calls that runs through --
    fences, samples, period and listener calls in any order -- the backlog
    stays within [mPendingLimit], and the limit is never changed. *)
Theorem backlog_within_limit_all_methods (ms : list Method) s s' :
  (length (mUnfiredFences s) ≤ mPendingLimit s)%nat →
  invokeAll ms s = Returns s' →
  (length (mUnfiredFences s') ≤ mPendingLimit s')%nat
  ∧ mPendingLimit s' = mPendingLimit s.
Proof.
  revert s. induction ms as [|m rest IH]; intros s Hbound; [by intros [= <-]|].
  cbn [invokeAll]. destruct (invoke m s) as [s1| |] eqn:Hstep; [|done..].
  cbn. intros Hrest.
  assert ((length (mUnfiredFences s1) ≤ mPendingLimit s1)%nat
          ∧ mPendingLimit s1 = mPendingLimit s) as [Hbound1 Hlimit1].
  { destruct m; cbn [invoke] in Hstep.
    - destruct (addPresentFence fence signals s) as [[b s2]| |] eqn:Hcall; [|done..].
      injection Hstep as <-. by eapply addPresentFence_preserves_bound.
    - injection Hstep as <-. unfold setIgnorePresentFences.
      destruct ignoration; cbn; [lia|done].
    - injection Hstep as <-. rewrite setPeriod_cases.
      by destruct (period =? Tracker.currentPeriod (mTracker s)).
    - by injection Hstep as <-.
    - by injection Hstep as <-.
    - destruct (addResyncSample timestamp s) as [[r s2]| |] eqn:Hcall; [|done..].
      injection Hstep as <-.
      by destruct (addResyncSample_frame _ _ _ _ Hcall) as (-> & -> & _).
    - by destruct (listener_method_frame (AddEventListener name phase callback) _ _ I Hstep)
        as (_ & -> & -> & _).
    - by destruct (listener_method_frame (RemoveEventListener callback) _ _ I Hstep)
        as (_ & -> & -> & _).
    - by destruct (listener_method_frame (ChangePhaseOffset callback phase) _ _ I Hstep)
        as (_ & -> & -> & _).
    - by injection Hstep as <-. }
  destruct (IH s1 Hbound1 Hrest) as [? ?]. split; [done|congruence].
Qed.

(** What [addResyncSample] does to the transition state: it commits, or
    keeps the transition and moves the anchor, or finds none. *)
Lemma addResyncSample_transition (timestamp : nsecs_t) s (r : bool * bool) s' :
  addResyncSample timestamp s = Returns (r, s') →
  (mPeriodTransitioningTo s' = None ∧ mLastHwVsync s' = None
   ∧ mMoreSamplesNeeded s' = false ∧ r = (false, true)
   ∧ is_Some (mPeriodTransitioningTo s) ∧ is_Some (mLastHwVsync s))
  ∨ (mPeriodTransitioningTo s' = mPeriodTransitioningTo s
     ∧ is_Some (mPeriodTransitioningTo s)
     ∧ mLastHwVsync s' = Some timestamp ∧ mMoreSamplesNeeded s' = true
     ∧ r = (true, false))
  ∨ (mPeriodTransitioningTo s = None ∧ mPeriodTransitioningTo s' = None
     ∧ mLastHwVsync s' = mLastHwVsync s ∧ mMoreSamplesNeeded s' = false
     ∧ r = (false, false)).
Proof.
  unfold addResyncSample.
  destruct (periodChangeDetected timestamp s) eqn:Hdetected.
  - destruct (periodChangeDetected_true _ _ Hdetected) as [Hanchor [period Hto]].
    rewrite Hto. cbn. intros [= <- <-]. left. cbn. by eauto 10.
  - destruct (mPeriodTransitioningTo s) as [period|] eqn:Hto; cbn; intros [= <- <-].
    + right; left. cbn. rewrite Hto. by eauto 10.
    + right; right. cbn. by rewrite Hto.
Qed.

(** X11: the transition state stays consistent over any sequence of public
    method calls that runs through: an anchor [mLastHwVsync] is only held
    while a transition is in flight, and [mMoreSamplesNeeded] is true exactly
    while a transition is in flight. *)
Theorem transition_state_consistent (ms : list Method) s s' :
  (is_Some (mLastHwVsync s) → is_Some (mPeriodTransitioningTo s)) →
  (mMoreSamplesNeeded s = true ↔ is_Some (mPeriodTransitioningTo s)) →
  invokeAll ms s = Returns s' →
  (is_Some (mLastHwVsync s') → is_Some (mPeriodTransitioningTo s'))
  ∧ (mMoreSamplesNeeded s' = true ↔ is_Some (mPeriodTransitioningTo s')).
Proof.
  revert s. induction ms as [|m rest IH]; intros s Hanchor Hmore; [by intros [= <-]|].
  cbn [invokeAll]. destruct (invoke m s) as [s1| |] eqn:Hstep; [|done..].
  cbn.
  assert (mPeriodTransitioningTo s1 = mPeriodTransitioningTo s
          ∧ mLastHwVsync s1 = mLastHwVsync s
          ∧ mMoreSamplesNeeded s1 = mMoreSamplesNeeded s
          ∨ (is_Some (mLastHwVsync s1) → is_Some (mPeriodTransitioningTo s1))
            ∧ (mMoreSamplesNeeded s1 = true ↔ is_Some (mPeriodTransitioningTo s1)))
    as [(Hto & Hlast & Hm)|[Hanchor1 Hmore1]].
  { destruct m; cbn [invoke] in Hstep.
    - destruct (addPresentFence fence signals s) as [[b s2]| |] eqn:Hcall; [|done..].
      injection Hstep as <-.
      destruct (addPresentFence_frame _ _ _ _ _ Hcall) as (_ & _ & ? & ? & ?). by left.
    - injection Hstep as <-. left. unfold setIgnorePresentFences. by destruct ignoration.
    - injection Hstep as <-. right. rewrite setPeriod_cases.
      destruct (period =? Tracker.currentPeriod (mTracker s)); cbn.
      + split; [by intros [? [=]]|]. split; [done|by intros [? [=]]].
      + split; [by intros [? [=]]|]. split; by eauto.
    - injection Hstep as <-. by left.
    - injection Hstep as <-. by left.
    - destruct (addResyncSample timestamp s) as [[r s2]| |] eqn:Hcall; [|done..].
      injection Hstep as <-. right.
      destruct (addResyncSample_transition _ _ _ _ Hcall)
        as [(-> & -> & -> & _)|[(-> & Hsome & -> & -> & _)|(Hnone & -> & -> & -> & _)]].
      + split; [by intros [? [=]]|]. split; [done|by intros [? [=]]].
      + split; [done|]. split; done.
      + split; [|split; [done|by intros [? [=]]]].
        intros Hsome. apply Hanchor in Hsome. rewrite Hnone in Hsome. by destruct Hsome.
    - left. by destruct (listener_method_frame (AddEventListener name phase callback)
                           _ _ I Hstep) as (_ & _ & _ & _ & ? & ? & ? & _).
    - left. by destruct (listener_method_frame (RemoveEventListener callback)
                           _ _ I Hstep) as (_ & _ & _ & _ & ? & ? & ? & _).
    - left. by destruct (listener_method_frame (ChangePhaseOffset callback phase)
                           _ _ I Hstep) as (_ & _ & _ & _ & ? & ? & ? & _).
    - injection Hstep as <-. by left. }
  - apply IH; by rewrite ?Hto, ?Hlast, ?Hm.
  - by apply IH.
Qed.

(** X12: fences, samples and period requests never reach the dispatcher: a
    call of any public method other than the three listener methods leaves
    the dispatcher as it was and, in every repeater, the registration, the
    stopped flag, the offset and the last call time.  In particular a
    committed period change reschedules nothing. *)
Theorem only_listener_methods_reach_dispatcher (m : Method) s s' :
  match m with
  | AddEventListener _ _ _ | RemoveEventListener _ | ChangePhaseOffset _ _ => False
  | _ => True
  end →
  invoke m s = Returns s' →
  mDispatch s' = mDispatch s
  ∧ dom (mCallbacks s') =@{gset Callback} dom (mCallbacks s)
  ∧ ∀ cb r', mCallbacks s' !! cb = Some r' →
      ∃ r, mCallbacks s !! cb = Some r
           ∧ CallbackRepeater.mRegistration r' = CallbackRepeater.mRegistration r
           ∧ CallbackRepeater.mStopped r' = CallbackRepeater.mStopped r
           ∧ CallbackRepeater.mOffset r' = CallbackRepeater.mOffset r
           ∧ CallbackRepeater.mLastCallTime r' = CallbackRepeater.mLastCallTime r.
Proof.
  assert (∀ s0 s1 : VSyncReactor.t T D C,
            mDispatch s1 = mDispatch s0 → mCallbacks s1 = mCallbacks s0 →
            mDispatch s1 = mDispatch s0
            ∧ dom (mCallbacks s1) =@{gset Callback} dom (mCallbacks s0)
            ∧ ∀ cb r', mCallbacks s1 !! cb = Some r' →
                ∃ r, mCallbacks s0 !! cb = Some r
                     ∧ CallbackRepeater.mRegistration r' = CallbackRepeater.mRegistration r
                     ∧ CallbackRepeater.mStopped r' = CallbackRepeater.mStopped r
                     ∧ CallbackRepeater.mOffset r' = CallbackRepeater.mOffset r
                     ∧ CallbackRepeater.mLastCallTime r' = CallbackRepeater.mLastCallTime r)
    as Hsame.
  { intros s0 s1 Hd Hm. rewrite Hm. split; [done|]. split; [done|]. by eauto 10. }
  destruct m; try done; intros _; cbn [invoke]; intros Hstep.
  - destruct (addPresentFence fence signals s) as [[b s2]| |] eqn:Hcall; [|done..].
    injection Hstep as <-.
    destruct (addPresentFence_frame _ _ _ _ _ Hcall) as (? & ? & _). by apply Hsame.
  - injection Hstep as <-. apply Hsame; unfold setIgnorePresentFences; by destruct ignoration.
  - injection Hstep as <-.
    apply Hsame; rewrite setPeriod_cases;
      by destruct (period =? Tracker.currentPeriod (mTracker s)).
  - injection Hstep as <-. by apply Hsame.
  - injection Hstep as <-. by apply Hsame.
  - destruct (addResyncSample timestamp s) as [[r s2]| |] eqn:Hcall; [|done..].
    injection Hstep as <-.
    destruct (addResyncSample_frame _ _ _ _ Hcall) as (_ & _ & Hd & [Hm|[p Hm]]);
      [by apply Hsame|].
    rewrite Hm. split; [done|]. split; [by rewrite dom_fmap_L|].
    intros cb r'. rewrite lookup_fmap.
    destruct (mCallbacks s !! cb) as [r0|]; [|done].
    cbn. intros [= <-]. exists r0. by rewrite setPeriod_mPeriod.
  - injection Hstep as <-. by apply Hsame.
Qed.

End MethodInvariants.

(** ** Registering, restarting and firing listeners *)

Section ListenerLifecycle.
Context {T D C : Type}.
Context `{Tracker.VSyncTracker T} `{Dispatch.VSyncDispatch D} `{Clock.Clock C}.
Import VSyncReactor.

Implicit Types (s : VSyncReactor.t T D C) (callback : Callback).

(** X13: [addEventListener] for an unseen identity, with room in the map,
    registers one callback with the dispatcher and files under the identity
    a running repeater seeded with the tracker's current period, the given
    phase and the clock's present time, leaving the other entries alone and
    the map one larger -- provided the dispatcher accepts the first
    schedule, of workload period - phase from that time.  If the dispatcher
    refuses, the call is fatal. *)
Theorem addEventListener_registers_new (name : string) (phase : nsecs_t) callback s
    (token : Dispatch.CallbackToken) (d1 : D) :
  mCallbacks s !! callback = None →
  (size (mCallbacks s) < 3)%nat →
  Dispatch.registerCallback name (mDispatch s) = (token, d1) →
  let period := Tracker.currentPeriod (mTracker s) in
  let now := Clock.now (mClock s) in
  let repeater := CallbackRepeater.mk callback token false period phase now in
  (∀ d2, Dispatch.schedule token (Nsecs.sub period phase) now d1 = (Dispatch.Scheduled, d2) →
     addEventListener name phase callback s
     = Returns (NO_ERROR,
                with_mDispatch d2
                  (with_mCallbacks (<[callback := repeater]> (mCallbacks s)) s))
     ∧ size (<[callback := repeater]> (mCallbacks s)) = S (size (mCallbacks s))
     ∧ ∀ other, other ≠ callback →
         <[callback := repeater]> (mCallbacks s) !! other = mCallbacks s !! other)
  ∧ (∀ result d2,
       Dispatch.schedule token (Nsecs.sub period phase) now d1 = (result, d2) →
       result ≠ Dispatch.Scheduled →
       addEventListener name phase callback s = Fatal "Error scheduling callback: rc %X").
Proof.
  intros Hunseen Hroom Hregister period now repeater.
  assert (Nat.leb maxListeners (size (mCallbacks s)) = false) as Hcap.
  { unfold maxListeners. apply Nat.leb_gt. lia. }
  split.
  - intros d2 Hschedule. split; [|split].
    + unfold addEventListener, CallbackRepeater.new.
      rewrite Hunseen, Hcap, Hregister.
      unfold startEntry, CallbackRepeater.start, CallbackRepeater.calculateWorkload.
      cbn. fold period now. rewrite Hschedule. cbn.
      by rewrite insert_insert_eq.
    + by apply map_size_insert_None.
    + intros other Hne. by rewrite lookup_insert_ne.
  - intros result d2 Hschedule Hrefused.
    unfold addEventListener, CallbackRepeater.new.
    rewrite Hunseen, Hcap, Hregister.
    unfold startEntry, CallbackRepeater.start, CallbackRepeater.calculateWorkload.
    cbn. fold period now. rewrite Hschedule. by destruct result.
Qed.

(** X14: [changePhaseOffset] on an identity that is not in the map is
    fatal.  On a registered identity it does what [addEventListener] does
    there, whatever the name: it starts the repeater that is filed, which
    comes out running with the new phase and its old registration, period
    and last call time, after one schedule on the dispatcher; the map keeps
    its size. *)
Theorem changePhaseOffset_restarts callback (phase : nsecs_t) s :
  (mCallbacks s !! callback = None →
     changePhaseOffset callback phase s = Fatal "callback was %p not registered")
  ∧ (∀ r, mCallbacks s !! callback = Some r →
       (∀ name : string,
          addEventListener name phase callback s = changePhaseOffset callback phase s)
       ∧ ∀ (st : status_t) s',
           changePhaseOffset callback phase s = Returns (st, s') →
           st = NO_ERROR
           ∧ mCallbacks s'
             = <[callback := CallbackRepeater.mk (CallbackRepeater.mCallback r)
                               (CallbackRepeater.mRegistration r) false
                               (CallbackRepeater.mPeriod r) phase
                               (CallbackRepeater.mLastCallTime r)]> (mCallbacks s)
           ∧ size (mCallbacks s') = size (mCallbacks s)
           ∧ mDispatch s'
             = (Dispatch.schedule (CallbackRepeater.mRegistration r)
                  (Nsecs.sub (CallbackRepeater.mPeriod r) phase)
                  (CallbackRepeater.mLastCallTime r) (mDispatch s)).2).
Proof.
  split.
  - intros Hunseen. unfold changePhaseOffset. by rewrite Hunseen.
  - intros r Hr. split.
    + intros name. unfold addEventListener, changePhaseOffset. by rewrite Hr.
    + intros st s'. unfold changePhaseOffset. rewrite Hr.
      unfold startEntry, CallbackRepeater.start, CallbackRepeater.calculateWorkload.
      cbn [CallbackRepeater.mCallback CallbackRepeater.mRegistration
           CallbackRepeater.mPeriod CallbackRepeater.mOffset
           CallbackRepeater.mLastCallTime].
      destruct (Dispatch.schedule _ _ _ _) as [[| |] d2]; [|done..].
      cbn. intros [= <- <-]. cbn. split; [done|]. split; [done|]. split; [|done].
      by apply map_size_insert_Some.
Qed.

(** X15: a removed listener can be resumed and removed again: after a
    [removeEventListener] that returned and an [addEventListener] for the
    same identity that returned, the next [removeEventListener] returns
    too, and leaves the repeater stopped. *)
Theorem removed_listener_resumes (name : string) (phase : nsecs_t) callback s
    (st1 st2 : status_t) s1 s2 :
  removeEventListener callback s = Returns (st1, s1) →
  addEventListener name phase callback s1 = Returns (st2, s2) →
  st2 = NO_ERROR
  ∧ (∃ r, mCallbacks s2 !! callback = Some r ∧ CallbackRepeater.mStopped r = false)
  ∧ ∃ s3, removeEventListener callback s2 = Returns (NO_ERROR, s3)
          ∧ ∃ r, mCallbacks s3 !! callback = Some r ∧ CallbackRepeater.mStopped r = true.
Proof.
  intros Hremove Hadd.
  destruct (removeEventListener_returns _ _ _ _ Hremove) as (r & Hr & _ & _ & ->).
  revert Hadd. unfold addEventListener.
  cbn [mCallbacks with_mDispatch with_mCallbacks]. rewrite lookup_insert_eq.
  intros Hstart. apply startEntry_returns in Hstart as [-> Hs2].
  split; [done|].
  assert (mCallbacks s2 !! callback
          = Some (CallbackRepeater.mk (CallbackRepeater.mCallback r)
                    (CallbackRepeater.mRegistration r) false (CallbackRepeater.mPeriod r)
                    phase (CallbackRepeater.mLastCallTime r))) as Hentry.
  { rewrite Hs2. cbn. by rewrite lookup_insert_eq. }
  split; [by eexists|].
  unfold removeEventListener, CallbackRepeater.stop. rewrite Hentry. cbn.
  destruct (Dispatch.cancel (CallbackRepeater.mRegistration r) (mDispatch s2)) as [res d3].
  cbn. eexists. split; [done|]. cbn. rewrite lookup_insert_eq. by eexists.
Qed.

(** X16: where the [nsecs_t] product and sum do not overflow,
    [computeNextRefresh n] asks the tracker for the vsync anticipated from
    now + n * currentPeriod, for every [n], zero included; and
    [computeNextRefresh 0] is [expectedPresentTime]. *)
Theorem computeNextRefresh_projects (periodOffset : Z) s :
  Nsecs.representable (periodOffset * Tracker.currentPeriod (mTracker s)) →
  Nsecs.representable
    (Clock.now (mClock s) + periodOffset * Tracker.currentPeriod (mTracker s)) →
  computeNextRefresh periodOffset s
  = Tracker.nextAnticipatedVSyncTimeFrom
      (Clock.now (mClock s) + periodOffset * Tracker.currentPeriod (mTracker s))
      (mTracker s)
  ∧ (periodOffset = 0 → computeNextRefresh periodOffset s = expectedPresentTime s).
Proof.
  intros Hproduct Hsum. unfold computeNextRefresh, expectedPresentTime, Nsecs.add, Nsecs.mul.
  destruct (Z.eqb_spec periodOffset 0) as [->|Hnz].
  - rewrite Z.mul_0_l in Hproduct, Hsum. rewrite !Z.mul_0_l.
    rewrite (wrap_representable 0) by done.
    rewrite wrap_representable by done. by rewrite Z.add_0_r.
  - rewrite (wrap_representable (periodOffset * _)) by done.
    rewrite wrap_representable by done. done.
Qed.

End ListenerLifecycle.

Section Firing.
Context {D : Type} `{Dispatch.VSyncDispatch D}.

Implicit Types (r : CallbackRepeater.t) (d : D).

(** X17: [stop] does not keep a firing from rescheduling.  A firing that
    runs on a repeater after its [stop] still calls the listener, and asks
    the dispatcher for the next firing with the workload the repeater had;
    when that is granted the repeater is left stopped, with a firing
    scheduled. *)
Theorem firing_after_stop_reschedules (vsynctime wakeupTime : nsecs_t) r d r1 d1 d2 :
  CallbackRepeater.stop r d = Returns (r1, d1) →
  Dispatch.schedule (CallbackRepeater.mRegistration r)
    (CallbackRepeater.calculateWorkload r) vsynctime d1 = (Dispatch.Scheduled, d2) →
  ∃ r2, CallbackRepeater.callback vsynctime wakeupTime r1 d1
        = Returns ((CallbackRepeater.mCallback r, wakeupTime), (r2, d2))
        ∧ CallbackRepeater.mStopped r2 = true
        ∧ CallbackRepeater.mLastCallTime r2 = vsynctime.
Proof.
  unfold CallbackRepeater.stop.
  destruct (CallbackRepeater.mStopped r); [done|].
  destruct (Dispatch.cancel (CallbackRepeater.mRegistration r) d) as [res d1'].
  intros [= <- <-] Hschedule.
  unfold CallbackRepeater.callback, CallbackRepeater.callbackReschedule,
    CallbackRepeater.callbackRecord, CallbackRepeater.calculateWorkload in *.
  cbn. rewrite Hschedule. cbn. by eexists.
Qed.

(** X18: a period given by [setPeriod] is used from the next firing on, and
    a firing's vsync time is the anchor of what is scheduled after it: the
    firing at [vsynctime] after [setPeriod period] schedules the workload
    period - offset from [vsynctime], and a [start] at a new offset after
    that schedules period - offset' from [vsynctime] again. *)
Theorem period_and_anchor_after_firing (period vsynctime wakeupTime offset' : nsecs_t)
    r d d1 d2 :
  Dispatch.schedule (CallbackRepeater.mRegistration r)
    (Nsecs.sub period (CallbackRepeater.mOffset r)) vsynctime d = (Dispatch.Scheduled, d1) →
  Dispatch.schedule (CallbackRepeater.mRegistration r)
    (Nsecs.sub period offset') vsynctime d1 = (Dispatch.Scheduled, d2) →
  ∃ r1 r2,
    CallbackRepeater.callback vsynctime wakeupTime (CallbackRepeater.setPeriod period r) d
    = Returns ((CallbackRepeater.mCallback r, wakeupTime), (r1, d1))
    ∧ CallbackRepeater.start offset' r1 d1 = Returns (r2, d2)
    ∧ CallbackRepeater.mPeriod r2 = period
    ∧ CallbackRepeater.mLastCallTime r2 = vsynctime
    ∧ CallbackRepeater.mOffset r2 = offset'
    ∧ CallbackRepeater.mStopped r2 = false.
Proof.
  intros Hfire Hstart. rewrite setPeriod_mPeriod.
  unfold CallbackRepeater.callback, CallbackRepeater.callbackReschedule,
    CallbackRepeater.callbackRecord, CallbackRepeater.start,
    CallbackRepeater.calculateWorkload.
  cbn. rewrite Hfire. cbn. eexists _, _. split; [done|].
  cbn. rewrite Hstart. done.
Qed.

End Firing.

(** ** The further properties on concrete reactors *)

Section FurtherOnScenarios.
Import VSyncReactor Scenario.

Lemma addPresentFence_forwards_settled_in_order_witness :
  ∃ s', addPresentFence (Some F3) someSettled backlogFull = Returns (false, s')
        ∧ Tracker.calls (mTracker s')
          = [Tracker.AddVsyncTimestamp 100; Tracker.AddVsyncTimestamp 300].
Proof.
  eexists. split; [reflexivity|].
  refine (proj1 (addPresentFence_forwards_settled_in_order F3 someSettled backlogFull
                   false _ eq_refl _ eq_refl)).
  discriminate.
Defined.

Lemma addPresentFence_never_forwards_unsettled_witness :
  ∃ s' times,
    addPresentFence (Some F3) allPending backlogFull = Returns (false, s')
    ∧ Tracker.calls (mTracker s')
      = Tracker.calls (mTracker backlogFull) ++ (Tracker.AddVsyncTimestamp <$> times)
    ∧ Forall (λ time, time ≠ Fence.SIGNAL_TIME_PENDING ∧ time ≠ Fence.SIGNAL_TIME_INVALID)
             times.
Proof.
  eexists.
  destruct (addPresentFence_never_forwards_unsettled (Some F3) allPending backlogFull
              false _ eq_refl) as (times & Hcalls & Hsettled).
  exists times. split; [reflexivity|]. split; [exact Hcalls|exact Hsettled].
Defined.

Lemma addPresentFence_backlog_pending_in_order_witness :
  ∃ s', addPresentFence (Some F3) someSettled backlogFull = Returns (false, s')
        ∧ Forall (λ it, someSettled it = Fence.SIGNAL_TIME_PENDING) (mUnfiredFences s')
        ∧ mUnfiredFences s' `sublist_of` [F1; F2; F3].
Proof.
  eexists. split; [reflexivity|].
  refine (addPresentFence_backlog_pending_in_order F3 someSettled backlogFull
            false _ eq_refl _ eq_refl).
  discriminate.
Defined.

Lemma pending_fence_forwarded_when_settled_witness :
  ∃ s1 s2,
    addPresentFence (Some F1) allPending idle = Returns (false, s1)
    ∧ addPresentFence (Some F3) someSettled s1 = Returns (false, s2)
    ∧ mUnfiredFences s2 = []
    ∧ Tracker.calls (mTracker s2)
      = [Tracker.AddVsyncTimestamp 100; Tracker.AddVsyncTimestamp 300].
Proof.
  destruct (pending_fence_forwarded_when_settled F1 F3 allPending someSettled idle)
    as (s1 & s2 & Hfirst & _ & _ & Hsecond & Hbacklog & Hcalls);
    [reflexivity|reflexivity|cbn; lia|reflexivity|discriminate..|].
  exists s1, s2. split; [exact Hfirst|]. split; [exact Hsecond|].
  split; [exact Hbacklog|exact Hcalls].
Defined.

Lemma settled_fences_forwarded_in_call_order_witness :
  ∃ s', addPresentFences [(Some F3, someSettled); (Some F1, someSettled)] idle = Returns s'
        ∧ Tracker.calls (mTracker s')
          = [Tracker.AddVsyncTimestamp 300; Tracker.AddVsyncTimestamp 100].
Proof.
  destruct (settled_fences_forwarded_in_call_order
              [(F3, someSettled); (F1, someSettled)] idle)
    as (s' & Hrun & Hcalls & _); [reflexivity|reflexivity|..].
  - repeat constructor; discriminate.
  - exists s'. split; [exact Hrun|exact Hcalls].
Defined.

Lemma second_sample_decides_transition_witness :
  ∃ s1 s2,
    addResyncSample 10000 (setPeriod period90Hz (fresh 2)) = Returns ((true, false), s1)
    ∧ addResyncSample (10000 + period90Hz) s1 = Returns ((false, true), s2)
    ∧ mPeriodTransitioningTo s2 = None.
Proof.
  destruct (second_sample_decides_transition period90Hz 10000 (fresh 2))
    as (s1 & Hfirst & (s2 & Hsecond & _ & Hto & _) & _);
    [discriminate|discriminate|vm_compute; split; discriminate..|].
  exists s1, s2. split; [exact Hfirst|]. split; [exact Hsecond|exact Hto].
Defined.

Lemma fresh_listeners_keyed (limit : nat) (cb : Callback) (r : CallbackRepeater.t) :
  mCallbacks (fresh limit) !! cb = Some r → CallbackRepeater.mCallback r = cb.
Proof. cbn. rewrite lookup_empty. discriminate. Defined.

Lemma listener_map_within_cap_witness :
  (size (mCallbacks afterSession) ≤ 3)%nat
  ∧ ∀ cb r, mCallbacks afterSession !! cb = Some r → CallbackRepeater.mCallback r = cb.
Proof.
  apply (listener_map_within_cap session (fresh 2));
    [cbn; rewrite map_size_empty; lia|apply fresh_listeners_keyed
    |vm_compute; reflexivity].
Defined.

Lemma backlog_within_limit_all_methods_witness :
  (length (mUnfiredFences afterSession) ≤ mPendingLimit afterSession)%nat
  ∧ mPendingLimit afterSession = 2%nat.
Proof.
  apply (backlog_within_limit_all_methods session (fresh 2));
    [cbn; lia|vm_compute; reflexivity].
Defined.

Lemma transition_state_consistent_witness :
  (is_Some (mLastHwVsync afterSession) → is_Some (mPeriodTransitioningTo afterSession))
  ∧ (mMoreSamplesNeeded afterSession = true
     ↔ is_Some (mPeriodTransitioningTo afterSession)).
Proof.
  apply (transition_state_consistent session (fresh 2));
    [|split|vm_compute; reflexivity].
  - intros [x Hx]. discriminate Hx.
  - discriminate.
  - intros [x Hx]. discriminate Hx.
Defined.

Lemma only_listener_methods_reach_dispatcher_witness :
  ∃ s', addResyncSample 11121111 listenersTransitioning = Returns ((false, true), s')
        ∧ mDispatch s' = mDispatch listenersTransitioning.
Proof.
  eexists. split; [reflexivity|].
  refine (proj1 (only_listener_methods_reach_dispatcher (AddResyncSample 11121111)
                   listenersTransitioning _ I eq_refl)).
Defined.

Lemma addEventListener_registers_new_witness :
  addEventListener "a" 0 10%N (fresh 2) = Returns (NO_ERROR, oneListener).
Proof.
  destruct (addEventListener_registers_new "a" 0 10%N (fresh 2) 0%N
              (Dispatch.mkRecording 1%N [Dispatch.RegisterCallback "a"]))
    as [Haccepted _]; [reflexivity|cbn; rewrite map_size_empty; lia|reflexivity|].
  destruct (Haccepted
              (Dispatch.mkRecording 1%N
                 [Dispatch.RegisterCallback "a"; Dispatch.Schedule 0%N 16666666 1000])
              eq_refl) as [Hcall _].
  exact Hcall.
Defined.

Lemma changePhaseOffset_restarts_witness :
  changePhaseOffset 40%N 500 threeListeners = Fatal "callback was %p not registered"
  ∧ addEventListener "again" 500 10%N threeListeners
    = changePhaseOffset 10%N 500 threeListeners.
Proof.
  split.
  - destruct (changePhaseOffset_restarts 40%N 500 threeListeners) as [Hunseen _].
    apply Hunseen. reflexivity.
  - destruct (changePhaseOffset_restarts 10%N 500 threeListeners) as [_ Hregistered].
    edestruct Hregistered as [Hsame _]; [reflexivity|]. apply Hsame.
Defined.

Lemma removed_listener_resumes_witness :
  ∃ s2 s3,
    addEventListener "a" 0 10%N oneRemoved = Returns (NO_ERROR, s2)
    ∧ removeEventListener 10%N s2 = Returns (NO_ERROR, s3).
Proof.
  eexists.
  edestruct (removed_listener_resumes "a" 0 10%N threeListeners NO_ERROR NO_ERROR
               oneRemoved) as (_ & _ & s3 & Hremove & _); [reflexivity|reflexivity|].
  exists s3. split; [reflexivity|exact Hremove].
Defined.

Lemma computeNextRefresh_projects_witness :
  computeNextRefresh 2 (fresh 2) = 1000 + 2 * period60Hz
  ∧ computeNextRefresh 0 (fresh 2) = expectedPresentTime (fresh 2).
Proof.
  split.
  - refine (proj1 (computeNextRefresh_projects 2 (fresh 2) _ _));
      vm_compute; split; discriminate.
  - refine (proj2 (computeNextRefresh_projects 0 (fresh 2) _ _) eq_refl);
      vm_compute; split; discriminate.
Defined.

Lemma firing_after_stop_reschedules_witness :
  ∃ r1 d1 r2 d2,
    CallbackRepeater.stop repeater10 dispatch0 = Returns (r1, d1)
    ∧ CallbackRepeater.callback 21666 21000 r1 d1 = Returns ((10%N, 21000), (r2, d2))
    ∧ CallbackRepeater.mStopped r2 = true
    ∧ Dispatch.calls d2 = [Dispatch.Cancel 0%N; Dispatch.Schedule 0%N 16665666 21666].
Proof.
  eexists _, _.
  edestruct (firing_after_stop_reschedules 21666 21000 repeater10 dispatch0)
    as (r2 & Hfire & Hstopped & _); [reflexivity|reflexivity|].
  eexists r2, _. split; [reflexivity|]. split; [exact Hfire|]. split; [exact Hstopped|].
  reflexivity.
Defined.

Lemma period_and_anchor_after_firing_witness :
  ∃ r1 d1 r2 d2,
    CallbackRepeater.callback 21666 21000
      (CallbackRepeater.setPeriod period90Hz repeater10) dispatch0
    = Returns ((10%N, 21000), (r1, d1))
    ∧ CallbackRepeater.start 500 r1 d1 = Returns (r2, d2)
    ∧ Dispatch.calls d2
      = [Dispatch.Schedule 0%N 11110111 21666; Dispatch.Schedule 0%N 11110611 21666].
Proof.
  edestruct (period_and_anchor_after_firing period90Hz 21666 21000 500 repeater10 dispatch0)
    as (r1 & r2 & Hfire & Hstart & _); [reflexivity|reflexivity|].
  eexists r1, _, r2, _. split; [exact Hfire|]. split; [exact Hstart|]. reflexivity.
Defined.

End FurtherOnScenarios.
